(** * The Cinder block device backend of Flocker

    A shallow embedding of [flocker/node/agents/cinder.py] and the
    properties of its volume listing, creation, attachment, polling
    and device path allocation.

    Conventions of the embedding:
    - Python [unicode]/[str] values are [string]s, a character being a
      code point below 256;
    - a Python float ([time.time()], the [value] of a [bitmath]
      quantity, the [size] of a Cinder volume) is the rational [Q] it
      denotes; the conversions of [bitmath] round to the nearest double
      ([Float.double], whose exponent is not bounded: neither overflow
      nor subnormal numbers are modelled), and the difference of two
      clock readings is taken exactly;
    - a [dict] of metadata is a [gmap string string];
    - an exception is a value of [Exc]; a function that may raise returns
      a [Result];
    - the Cinder and Nova clients, the clock, [xenstore-read] and the
      [/dev] directory live in a [World] that is threaded through the
      adapter's methods; a call to a client answers: the failures of
      the provider's API itself are not modelled. *)

From Stdlib Require Import ZArith QArith Qround Qabs Qpower Lqa.
From Stdlib Require Import Ascii String DecimalString List Lia.
From stdpp Require Import base strings list gmap.

Local Open Scope string_scope.
Local Open Scope Z_scope.

(** ** Python primitives the module uses *)

Module Py.

(** [s.rstrip()]: trailing whitespace removed. *)
Definition is_space (c : ascii) : bool :=
  let n := nat_of_ascii c in
  ((9 <=? n) && (n <=? 13))%nat || (n =? 32)%nat.

Fixpoint rstrip_chars (l : list ascii) : list ascii :=
  match l with
  | [] => []
  | c :: l' =>
      match rstrip_chars l' with
      | [] => if is_space c then [] else [c]
      | r => c :: r
      end
  end.

Definition rstrip (s : string) : string :=
  string_of_list_ascii (rstrip_chars (list_ascii_of_string s)).

(** [s[n:]] *)
Definition drop_prefix (n : nat) (s : string) : string :=
  string_of_list_ascii (skipn n (list_ascii_of_string s)).

(** [s.startswith(p)] *)
Definition startswith (s p : string) : bool := String.prefix p s.

(** [string.ascii_lowercase] *)
Definition ascii_lowercase : string := "abcdefghijklmnopqrstuvwxyz".

(** [int(x)] on a float: truncation toward zero. *)
Definition int_of_float (x : Q) : Z :=
  if Qle_bool 0 x then Qfloor x else Qceiling x.

(** [Py_UNICODE_ISSPACE] on a code point below 256 ([is_space] above is
    [isspace] of C, which [str] methods use). *)
Definition unicode_is_space (c : ascii) : bool :=
  let n := nat_of_ascii c in
  is_space c || ((28 <=? n) && (n <=? 31))%nat || (n =? 133)%nat
  || (n =? 160)%nat.

Fixpoint starts_with (s p : list ascii) : bool :=
  match p, s with
  | [], _ => true
  | a :: p', b :: s' => Ascii.eqb a b && starts_with s' p'
  | _ :: _, [] => false
  end.

(** [s.replace(old, '')] for a non-empty [old]: the occurrences of [old]
    are found from left to right and do not overlap.  [skip] counts the
    characters of an occurrence still to be passed over. *)
Fixpoint replace_from (old : list ascii) (skip : nat) (s : list ascii)
  : list ascii :=
  match s with
  | [] => []
  | c :: rest =>
      match skip with
      | S skip' => replace_from old skip' rest
      | O =>
          if starts_with s old
          then replace_from old (length old - 1) rest
          else c :: replace_from old 0 rest
      end
  end.

Definition replace_with_empty (s old : list ascii) : list ascii :=
  replace_from old 0 s.

(** [c in chars] *)
Definition among (chars : list ascii) (c : ascii) : bool :=
  existsb (Ascii.eqb c) chars.

(** [s.lstrip(chars)], [s.rstrip(chars)] and [s.strip(chars)] *)
Fixpoint lstrip_of (chars s : list ascii) : list ascii :=
  match s with
  | [] => []
  | c :: rest => if among chars c then lstrip_of chars rest else s
  end.

Fixpoint rstrip_of (chars s : list ascii) : list ascii :=
  match s with
  | [] => []
  | c :: rest =>
      match rstrip_of chars rest with
      | [] => if among chars c then [] else [c]
      | r => c :: r
      end
  end.

Definition strip_of (chars s : list ascii) : list ascii :=
  rstrip_of chars (lstrip_of chars s).

(** One digit of ['%02x' % n] *)
Definition hex_nibble (n : nat) : ascii :=
  match String.get n "0123456789abcdef" with
  | Some c => c
  | None => "0"%char
  end.

(** [repr(s)] of a [str]: the quote is the double one when [s] has a
    single quote and no double one; the quote and the backslash are
    escaped, tab, newline and return are written [\t], [\n] and [\r],
    and what is left outside the printable ASCII range as [\xNN]. *)
Definition backslash : ascii := ascii_of_nat 92.

Definition repr_char (quote c : ascii) : list ascii :=
  let n := nat_of_ascii c in
  if Ascii.eqb c quote || Ascii.eqb c backslash then [backslash; c]
  else if (n =? 9)%nat then [backslash; "t"%char]
  else if (n =? 10)%nat then [backslash; "n"%char]
  else if (n =? 13)%nat then [backslash; "r"%char]
  else if (n <? 32)%nat || (127 <=? n)%nat
       then [backslash; "x"%char; hex_nibble (n / 16); hex_nibble (n mod 16)]
  else [c].

Definition repr (s : list ascii) : list ascii :=
  let double_quote := ascii_of_nat 34 in
  let quote :=
    if among s "'"%char && negb (among s double_quote)
    then double_quote else "'"%char in
  quote :: flat_map (repr_char quote) s ++ [quote].

End Py.

(** ** Floating point

    A double is a rational [m * 2^e] with [|m| < 2^53]; the result of an
    operation on doubles is the double nearest to the exact result, the
    one with an even [m] when two are equally near. *)

Module Float.

Definition round_half_even (x : Q) : Z :=
  let f := Qfloor x in
  match (x - inject_Z f ?= 1 # 2)%Q with
  | Lt => f
  | Gt => f + 1
  | Eq => if Z.even f then f else f + 1
  end.

(** The [k] with [2^k <= a < 2^(k+1)], for [0 < a]. *)
Definition ilog2 (a : Q) : Z :=
  let k := Z.log2 (Qnum a) - Z.log2 (Zpos (Qden a)) in
  if Qle_bool (2 ^ k) a then k else k - 1.

(** [x] rounded to 53 significant bits. *)
Definition double (x : Q) : Q :=
  if Qeq_bool x 0 then 0%Q
  else
    let a := Qabs x in
    let e := ilog2 a - 52 in
    let m := round_half_even (a / 2 ^ e) in
    let y := (inject_Z m * 2 ^ e)%Q in
    if Qle_bool 0 x then y else (- y)%Q.

End Float.

(** ** UUIDs

    Python's [uuid.UUID] is a 128-bit integer [int] with a canonical
    text form: 32 lowercase hexadecimal digits in groups 8-4-4-4-12. *)

Module UUID.

Definition t := Z.

Definition valid (u : t) : Prop := 0 <= u < 2 ^ 128.

Definition eqb (u v : t) : bool := Z.eqb u v.

Definition hex_digit (d : Z) : ascii :=
  match d with
  | 0 => "0" | 1 => "1" | 2 => "2" | 3 => "3"
  | 4 => "4" | 5 => "5" | 6 => "6" | 7 => "7"
  | 8 => "8" | 9 => "9" | 10 => "a" | 11 => "b"
  | 12 => "c" | 13 => "d" | 14 => "e" | _ => "f"
  end%char.

Definition digit_value (c : ascii) : option Z :=
  let n := Z.of_nat (nat_of_ascii c) in
  if (48 <=? n) && (n <=? 57) then Some (n - 48)
  else if (97 <=? n) && (n <=? 102) then Some (n - 87)
  else if (65 <=? n) && (n <=? 70) then Some (n - 55)
  else None.

(** ['%0kx' % n] for [0 <= n < 16^k] *)
Fixpoint hex_of (k : nat) (n : Z) : list ascii :=
  match k with
  | O => []
  | S k' => hex_of k' (n / 16) ++ [hex_digit (n mod 16)]
  end.

Definition hyphen : ascii := "-"%char.

Definition not_hyphen (c : ascii) : bool := negb (Ascii.eqb c hyphen).

(** [str(u)]:
    [hex = '%032x' % self.int] and
    ['%s-%s-%s-%s-%s' % (hex[:8], hex[8:12], hex[12:16], hex[16:20], hex[20:])] *)
Definition hyphenate (hex : list ascii) : list ascii :=
  firstn 8 hex ++ hyphen ::
  firstn 4 (skipn 8 hex) ++ hyphen ::
  firstn 4 (skipn 12 hex) ++ hyphen ::
  firstn 4 (skipn 16 hex) ++ hyphen ::
  skipn 20 hex.

Definition to_string (u : t) : string :=
  string_of_list_ascii (hyphenate (hex_of 32 u)).

(** *** [long(hex, 16)]

    [PyLong_FromString(str, NULL, 16)] reads whitespace, a sign,
    whitespace, [0x] or [0X], one hexadecimal digit or more, [L] or
    [l], whitespace; then the text must be over. *)

Fixpoint skip_spaces (str : list ascii) : list ascii :=
  match str with
  | [] => []
  | c :: rest => if Py.is_space c then skip_spaces rest else str
  end.

Definition skip_sign (str : list ascii) : Z * list ascii :=
  match str with
  | c :: rest =>
      if Ascii.eqb c "+" then (1, rest)
      else if Ascii.eqb c "-" then (-1, rest)
      else (1, str)
  | [] => (1, str)
  end.

Definition skip_0x (str : list ascii) : list ascii :=
  match str with
  | c0 :: c1 :: rest =>
      if Ascii.eqb c0 "0" && (Ascii.eqb c1 "x" || Ascii.eqb c1 "X")
      then rest else str
  | _ => str
  end.

(** The number the digits at the head of [str] denote after [acc], and
    what follows them. *)
Fixpoint scan_digits (acc : Z) (str : list ascii) : Z * list ascii :=
  match str with
  | [] => (acc, [])
  | c :: rest =>
      match digit_value c with
      | Some d => scan_digits (16 * acc + d) rest
      | None => (acc, str)
      end
  end.

Definition skip_L (str : list ascii) : list ascii :=
  match str with
  | c :: rest => if Ascii.eqb c "L" || Ascii.eqb c "l" then rest else str
  | [] => str
  end.

(** [None] is the error [invalid literal]; no digit read
    ([str == start]) is one. *)
Definition long_from_string (orig_str : list ascii) : option Z :=
  let str := skip_spaces orig_str in
  let '(sign, str) := skip_sign str in
  let str := skip_spaces str in
  let start := skip_0x str in
  let '(z, str) := scan_digits 0 start in
  if (length str =? length start)%nat then None
  else
    match skip_spaces (skip_L str) with
    | [] => Some (sign * z)
    | _ :: _ => None
    end.

(** [PyUnicode_EncodeDecimal] on code points below 256: whitespace
    becomes a blank, and a NUL cannot be encoded ([inl] is its
    position). *)
Fixpoint encode_decimal (position : nat) (s : list ascii)
  : nat + list ascii :=
  match s with
  | [] => inr []
  | ch :: rest =>
      if Py.unicode_is_space ch
      then match encode_decimal (S position) rest with
           | inr output => inr (" "%char :: output)
           | inl p => inl p
           end
      else if (nat_of_ascii ch =? 0)%nat then inl position
      else match encode_decimal (S position) rest with
           | inr output => inr (ch :: output)
           | inl p => inl p
           end
  end.

Definition invalid_literal (s : list ascii) : string :=
  "invalid literal for long() with base 16: "
  ++ string_of_list_ascii (Py.repr s).

(** [long(hex, 16)]: the number, or the message of the [ValueError].
    A [unicode] goes through [PyUnicode_EncodeDecimal] first (its
    [UnicodeEncodeError] is a [ValueError]); a [str] with a NUL is
    refused at once. *)
Definition long (is_unicode : bool) (hex : list ascii) : Z + string :=
  if is_unicode then
    match encode_decimal 0 hex with
    | inl position =>
        inr ("'decimal' codec can't encode character u'"
             ++ String Py.backslash "x00' in position "
             ++ NilEmpty.string_of_uint (Nat.to_uint position)
             ++ ": invalid decimal Unicode string")
    | inr buffer =>
        match long_from_string buffer with
        | Some z => inl z
        | None => inr (invalid_literal buffer)
        end
    end
  else
    if existsb (fun c => (nat_of_ascii c =? 0)%nat) hex
    then inr (invalid_literal hex)
    else
      match long_from_string hex with
      | Some z => inl z
      | None => inr (invalid_literal hex)
      end.

(** [UUID(hex)], the constructor of Python 2.7:
    [hex = hex.replace('urn:', '').replace('uuid:', '')],
    [hex = hex.strip('{}').replace('-', '')], then [len(hex)] must be
    32, [int = long(hex, 16)] and [0 <= int < 1 << 128].  [inr] is the
    message of the [ValueError]. *)
Definition of_text (is_unicode : bool) (s : string) : t + string :=
  let hex := list_ascii_of_string s in
  let hex :=
    Py.replace_with_empty
      (Py.replace_with_empty hex (list_ascii_of_string "urn:"))
      (list_ascii_of_string "uuid:") in
  let hex :=
    filter (fun c => not_hyphen c = true)
           (Py.strip_of (list_ascii_of_string "{}") hex) in
  if negb (length hex =? 32)%nat
  then inr "badly formed hexadecimal UUID string"
  else
    match long is_unicode hex with
    | inr message => inr message
    | inl int =>
        if (0 <=? int) && (int <? 2 ^ 128) then inl int
        else inr "int is out of range (need a 128-bit value)"
    end.

(** [UUID(s)] on a [unicode], as the labels of a Cinder volume are;
    [None] stands for the [ValueError]. *)
Definition parse (s : string) : option t :=
  match of_text true s with
  | inl u => Some u
  | inr _ => None
  end.

End UUID.

(** ** Data model *)

(** The [cinderclient] (and [novaclient]) [Volume]: what the module
    reads of it. *)
Module Volume.
Record t := {
  id : string;
  size : Q;                          (* in GB *)
  status : string;
  metadata : gmap string string
}.
End Volume.

(** [flocker.node.agents.blockdevice.BlockDeviceVolume] *)
Module BlockDeviceVolume.
Record t := {
  blockdevice_id : string;
  size : Z;                          (* in bytes *)
  host : option string;
  dataset_id : UUID.t
}.

(** [volume.set('host', host)]: a new record, the others unchanged *)
Definition set_host (v : t) (h : string) : t :=
  {| blockdevice_id := blockdevice_id v;
     size := size v;
     host := Some h;
     dataset_id := dataset_id v |}.
End BlockDeviceVolume.

Definition CLUSTER_ID_LABEL : string := "flocker-cluster-id".
Definition DATASET_ID_LABEL : string := "flocker-dataset-id".

(** ** Exceptions and results *)

(** The exceptions the module raises, with what each one carries.
    [Exception_timed_out] is the plain [Exception] of [wait_for_volume],
    whose message is formatted from the four values kept here. *)
Inductive Exc :=
| UnknownVolume (blockdevice_id : string)
| ValueError (message : string)
| KeyError (key : string)
| IndexError (message : string)
| AssertionError
| Exception_timed_out (expected_volume : Volume.t) (expected_status : string)
                      (elapsed_time time_limit : Q).

Inductive Result (A : Type) :=
| Return (a : A)
| Raise (e : Exc).
Arguments Return {A} a.
Arguments Raise {A} e.

#[global] Instance Result_ret : MRet Result := @Return.
#[global] Instance Result_bind : MBind Result := fun A B f r =>
  match r with
  | Return a => f a
  | Raise e => Raise e
  end.

(** [UUID(s)] with its [ValueError]: on a [unicode], as the labels
    are, and on a [str], as the output of a command is. *)
Definition UUID_error_message (s : string) : string :=
  match UUID.of_text true s with
  | inr message => message
  | inl _ => ""
  end.

Definition UUID_ (s : string) : Result UUID.t :=
  match UUID.parse s with
  | Some u => Return u
  | None => Raise (ValueError (UUID_error_message s))
  end.

Definition UUID_of_str (s : string) : Result UUID.t :=
  match UUID.of_text false s with
  | inl u => Return u
  | inr message => Raise (ValueError message)
  end.

(** ** Unit conversion ([bitmath]) *)

Definition GB_in_bytes : Z := 10 ^ 9.

(** [Byte(size).to_GB().value]: [size] becomes a float and is divided
    by [float(10 ** 9)]. *)
Definition Byte_to_GB (size : Z) : Q :=
  Float.double (Float.double (inject_Z size) / inject_Z GB_in_bytes)%Q.

(** [GB(size).to_Byte().value]: [size * 10 ** 9], as a float. *)
Definition GB_to_Byte (size : Q) : Q :=
  Float.double (size * inject_Z GB_in_bytes)%Q.

(** ** The pure translation functions *)

Definition _is_cluster_volume (cluster_id : UUID.t) (cinder_volume : Volume.t)
  : Result bool :=
  match Volume.metadata cinder_volume !! CLUSTER_ID_LABEL with
  | Some actual_cluster_id =>
      actual_cluster_id ← UUID_ actual_cluster_id;
      if UUID.eqb actual_cluster_id cluster_id then Return true else Return false
  | None => Return false
  end.

Definition _blockdevicevolume_from_cinder_volume (cinder_volume : Volume.t)
  : Result BlockDeviceVolume.t :=
  match Volume.metadata cinder_volume !! DATASET_ID_LABEL with
  | None => Raise (KeyError DATASET_ID_LABEL)
  | Some label =>
      dataset_id ← UUID_ label;
      Return {| BlockDeviceVolume.blockdevice_id := Volume.id cinder_volume;
                BlockDeviceVolume.size :=
                  Py.int_of_float (GB_to_Byte (Volume.size cinder_volume));
                BlockDeviceVolume.host := None;
                BlockDeviceVolume.dataset_id := dataset_id |}
  end.

(** The loop of [list_volumes] over the provider's listing; [volumes] is
    the list being appended to. *)
Fixpoint list_volumes_loop (cluster_id : UUID.t) (listing : list Volume.t)
    (volumes : list BlockDeviceVolume.t) : Result (list BlockDeviceVolume.t) :=
  match listing with
  | [] => Return volumes
  | cinder_volume :: rest =>
      is_cluster ← _is_cluster_volume cluster_id cinder_volume;
      if is_cluster : bool
      then
        volume ← _blockdevicevolume_from_cinder_volume cinder_volume;
        list_volumes_loop cluster_id rest (volumes ++ [volume])
      else list_volumes_loop cluster_id rest volumes
  end.

(** The loop of [_get] over the records of [list_volumes] *)
Fixpoint _get_loop (volumes : list BlockDeviceVolume.t) (blockdevice_id : string)
  : Result BlockDeviceVolume.t :=
  match volumes with
  | [] => Raise (UnknownVolume blockdevice_id)
  | volume :: rest =>
      if String.eqb (BlockDeviceVolume.blockdevice_id volume) blockdevice_id
      then Return volume
      else _get_loop rest blockdevice_id
  end.

(** ** The world outside the adapter *)

(** A request that changes the provider, as sent by the adapter. *)
Inductive Request :=
| cinder_create (size : Q) (metadata : gmap string string)
| cinder_set_metadata (volume : Volume.t) (metadata : gmap string string)
| nova_create_server_volume (server_id : UUID.t) (volume_id : string)
                            (device : string).

(** The provider and the host are not under the adapter's control: what
    they answer is given by oracles ([reply], [listing], [clock], [dev],
    [xenstore_name]), and the remaining fields record how far the
    adapter has got with them. *)
Record World := {
  (** the volume the provider answers to the latest of the requests sent
      so far (latest first) *)
  reply : list Request -> Volume.t;
  (** the provider's answer to the n-th [list()] *)
  listing : nat -> list Volume.t;
  (** the n-th reading of [time.time()], in seconds *)
  clock : nat -> Q;
  (** the names in [/dev] at the n-th look at the file system *)
  dev : nat -> list string;
  (** the output of [xenstore-read name] *)
  xenstore_name : string;
  requests : list Request;
  listed : nat;
  clock_read : nat;
  dev_looked : nat;
  slept : nat
}.

(** A computation in the world: [None] when a polling loop is cut off by
    its fuel, otherwise the result and the world after it. *)
Definition M (A : Type) : Type := World -> option (Result A * World).

#[global] Instance M_ret : MRet M := fun A a w => Some (Return a, w).
#[global] Instance M_bind : MBind M := fun A B f m w =>
  match m w with
  | Some (Return a, w') => f a w'
  | Some (Raise e, w') => Some (Raise e, w')
  | None => None
  end.

Definition raise {A} (e : Exc) : M A := fun w => Some (Raise e, w).

Definition lift {A} (r : Result A) : M A := fun w => Some (r, w).

Definition send (rq : Request) : M Volume.t := fun w =>
  let rqs := rq :: requests w in
  Some (Return (reply w rqs),
        {| reply := reply w; listing := listing w; clock := clock w;
           dev := dev w; xenstore_name := xenstore_name w;
           requests := rqs;
           listed := listed w; clock_read := clock_read w;
           dev_looked := dev_looked w; slept := slept w |}).

(** [volume_manager.list()] *)
Definition cinder_list : M (list Volume.t) := fun w =>
  Some (Return (listing w (listed w)),
        {| reply := reply w; listing := listing w; clock := clock w;
           dev := dev w; xenstore_name := xenstore_name w;
           requests := requests w;
           listed := S (listed w); clock_read := clock_read w;
           dev_looked := dev_looked w; slept := slept w |}).

(** [time.time()] *)
Definition time_time : M Q := fun w =>
  Some (Return (clock w (clock_read w)),
        {| reply := reply w; listing := listing w; clock := clock w;
           dev := dev w; xenstore_name := xenstore_name w;
           requests := requests w;
           listed := listed w; clock_read := S (clock_read w);
           dev_looked := dev_looked w; slept := slept w |}).

(** [time.sleep(0.1)] *)
Definition time_sleep : M unit := fun w =>
  Some (Return tt,
        {| reply := reply w; listing := listing w; clock := clock w;
           dev := dev w; xenstore_name := xenstore_name w;
           requests := requests w;
           listed := listed w; clock_read := clock_read w;
           dev_looked := dev_looked w; slept := S (slept w) |}).

(** A look at [/dev]: the names in it. *)
Definition look_at_dev : M (list string) := fun w =>
  Some (Return (dev w (dev_looked w)),
        {| reply := reply w; listing := listing w; clock := clock w;
           dev := dev w; xenstore_name := xenstore_name w;
           requests := requests w;
           listed := listed w; clock_read := clock_read w;
           dev_looked := S (dev_looked w); slept := slept w |}).

(** [check_output(['xenstore-read', 'name'])] *)
Definition xenstore_read_name : M string := fun w =>
  Some (Return (xenstore_name w), w).

(** ** [twisted.python.filepath.FilePath] *)

Module FilePath.
Record t := { path : string }.

Definition slash : ascii := "/"%char.

(** [os.path.basename]: what follows the last slash *)
Definition basename_chars (l : list ascii) : list ascii :=
  fold_left (fun (acc : list ascii) c =>
               if Ascii.eqb c slash then [] else (acc ++ [c])%list) l [].

Definition basename (p : t) : string :=
  string_of_list_ascii (basename_chars (list_ascii_of_string (path p))).

(** [FilePath('/dev').child(name)] *)
Definition dev_child (name : string) : t := {| path := "/dev/" ++ name |}.

(** [FilePath('/dev').children()] *)
Definition dev_children : M (list t) :=
  names ← look_at_dev;
  mret (map dev_child names).

(** [FilePath(p).exists()] for a path [p] in [/dev] *)
Definition exists_ (p : string) : M bool :=
  names ← look_at_dev;
  mret (existsb (fun name => String.eqb ("/dev/" ++ name) p) names).
End FilePath.

(** ** Polling *)

(** The [for] loop of [wait_for_volume] over one listing: the first
    listed volume with the expected id and the expected status. *)
Fixpoint find_listed (listed_volumes : list Volume.t)
    (expected_id expected_status : string) : option Volume.t :=
  match listed_volumes with
  | [] => None
  | listed_volume :: rest =>
      if String.eqb (Volume.id listed_volume) expected_id
      then if String.eqb (Volume.status listed_volume) expected_status
           then Some listed_volume
           else find_listed rest expected_id expected_status
      else find_listed rest expected_id expected_status
  end.

(** [a < b] on floats *)
Definition Qltb (a b : Q) : bool := negb (Qle_bool b a).

(** The [while True] loop, at most [fuel] rounds of it. *)
Fixpoint wait_loop (fuel : nat) (expected_volume : Volume.t)
    (expected_status : string) (time_limit start_time : Q) : M Volume.t :=
  match fuel with
  | O => fun _ => None
  | S fuel' =>
      listed_volumes ← cinder_list;
      match find_listed listed_volumes (Volume.id expected_volume)
              expected_status with
      | Some listed_volume => mret listed_volume
      | None =>
          now ← time_time;
          let elapsed_time := (now - start_time)%Q in
          if Qltb elapsed_time time_limit
          then _ ← time_sleep;
               wait_loop fuel' expected_volume expected_status
                 time_limit start_time
          else raise (Exception_timed_out expected_volume expected_status
                        elapsed_time time_limit)
      end
  end.

Definition wait_for_volume (fuel : nat) (expected_volume : Volume.t)
    (expected_status : string) (time_limit : Q) : M Volume.t :=
  start_time ← time_time;
  wait_loop fuel expected_volume expected_status time_limit start_time.

Definition default_expected_status : string := "available".
Definition default_time_limit : Q := inject_Z 60.

(** ** The host *)

Definition _instance_uuid : M UUID.t :=
  let prefix := "instance-" in
  output ← xenstore_read_name;
  let name := Py.rstrip output in
  lift (UUID_of_str (Py.drop_prefix (String.length prefix) name)).

(** The list comprehension of [_next_device]: the children of [/dev]
    whose path starts with the prefix and whose basename has four
    characters. *)
Definition existing_devices (prefix : string) (children : list FilePath.t)
  : list FilePath.t :=
  List.filter (fun path =>
                 Py.startswith (FilePath.path path) prefix
                 && (String.length (FilePath.basename path) =? 4)%nat)
              children.

Definition _next_device : M string :=
  let prefix := "/dev/xvd" in
  children ← FilePath.dev_children;
  let existing := existing_devices prefix children in
  let letters := Py.ascii_lowercase in
  match String.get (length existing) letters with
  | Some letter => mret (prefix ++ String letter "")
  | None => raise (IndexError "string index out of range")
  end.

(** ** The adapter *)

Module CinderBlockDeviceAPI.

(** [self]: the two volume managers are the [World]'s. *)
Record t := { cluster_id : UUID.t }.

Definition create_volume (fuel : nat) (self : t) (dataset_id : UUID.t)
    (size : Z) : M BlockDeviceVolume.t :=
  let metadata : gmap string string :=
    <[CLUSTER_ID_LABEL := UUID.to_string (cluster_id self)]>
      (<[DATASET_ID_LABEL := UUID.to_string dataset_id]> ∅) in
  requested_volume ← send (cinder_create (Byte_to_GB size) metadata);
  created_volume ← wait_for_volume fuel requested_volume
                     default_expected_status default_time_limit;
  _ ← send (cinder_set_metadata created_volume metadata);
  lift (_blockdevicevolume_from_cinder_volume requested_volume).

Definition list_volumes (self : t) : M (list BlockDeviceVolume.t) :=
  listed_volumes ← cinder_list;
  lift (list_volumes_loop (cluster_id self) listed_volumes []).

Definition _get (self : t) (blockdevice_id : string) : M BlockDeviceVolume.t :=
  volumes ← list_volumes self;
  lift (_get_loop volumes blockdevice_id).

Definition resize_volume (self : t) (blockdevice_id : string) (size : Z)
  : M unit := mret tt.

Definition attach_volume (fuel : nat) (self : t) (blockdevice_id : string)
    (host : string) : M BlockDeviceVolume.t :=
  unattached_volume ← _get self blockdevice_id;
  local_instance_uuid ← _instance_uuid;
  device_path ← _next_device;
  nova_volume ← send (nova_create_server_volume local_instance_uuid
                        (BlockDeviceVolume.blockdevice_id unattached_volume)
                        device_path);
  _ ← wait_for_volume fuel nova_volume "in-use" default_time_limit;
  device_exists ← FilePath.exists_ device_path;
  if device_exists : bool
  then
    let attached_volume := BlockDeviceVolume.set_host unattached_volume host in
    mret attached_volume
  else raise AssertionError.

Definition detach_volume (self : t) (blockdevice_id : string) : M unit :=
  mret tt.

Definition destroy_volume (self : t) (blockdevice_id : string) : M unit :=
  mret tt.

Definition get_device_path (self : t) (blockdevice_id : string) : M unit :=
  mret tt.

End CinderBlockDeviceAPI.

(** The name of the device node with the [n]-th lowercase letter:
    [xvda], [xvdb], ... *)
Definition xvd_name (n : nat) : string :=
  "xvd" ++ String (ascii_of_nat (97 + n)) "".

(** ** Authentication sessions *)

Definition RACKSPACE_AUTH_URL : string :=
  "https://identity.api.rackspacecloud.com/v2.0".

(** [keystoneclient_rackspace.v2_0.RackspaceAuth], as constructed *)
Module RackspaceAuth.
Record t := { auth_url : string; username : string; api_key : string }.
End RackspaceAuth.

(** [keystoneclient.session.Session], as constructed *)
Module Session.
Record t := { auth : RackspaceAuth.t }.
End Session.

(** [kwargs.pop(key)]: the value and the dictionary without the key, or
    [KeyError] *)
Definition dict_pop (key : string) (kwargs : gmap string string)
  : Result (string * gmap string string) :=
  match kwargs !! key with
  | Some value => Return (value, delete key kwargs)
  | None => Raise (KeyError key)
  end.

Definition rackspace_session (kwargs : gmap string string) : Result Session.t :=
  '(username, kwargs) ← dict_pop "username" kwargs;
  '(api_key, kwargs) ← dict_pop "key" kwargs;
  let auth :=
    {| RackspaceAuth.auth_url := RACKSPACE_AUTH_URL;
       RackspaceAuth.username := username;
       RackspaceAuth.api_key := api_key |} in
  Return {| Session.auth := auth |}.

(** [SESSION_FACTORIES] *)
Definition SESSION_FACTORIES
  : gmap string (gmap string string -> Result Session.t) :=
  {[ "rackspace" := rackspace_session ]}.

(** ** Ownership, as the specification words it *)

(** A provider volume is cluster-owned when its metadata contains the
    cluster label and that value parses as a UUID equal to the configured
    cluster id. *)
Definition cluster_owned (cluster_id : UUID.t) (v : Volume.t) : bool :=
  match Volume.metadata v !! CLUSTER_ID_LABEL with
  | Some label =>
      match UUID.parse label with
      | Some actual => UUID.eqb actual cluster_id
      | None => false
      end
  | None => false
  end.

(** The cluster label, when there is one, is the text of a UUID. *)
Definition cluster_label_ok (v : Volume.t) : bool :=
  match Volume.metadata v !! CLUSTER_ID_LABEL with
  | Some label => bool_decide (is_Some (UUID.parse label))
  | None => true
  end.

(** The dataset label is there and is the text of a UUID. *)
Definition dataset_label_ok (v : Volume.t) : bool :=
  match Volume.metadata v !! DATASET_ID_LABEL with
  | Some label => bool_decide (is_Some (UUID.parse label))
  | None => false
  end.

(** A volume that [list_volumes] can go past: its cluster label is
    absent or well formed, and if it is cluster-owned its dataset label
    is well formed. *)
Definition listable (cluster_id : UUID.t) (v : Volume.t) : bool :=
  cluster_label_ok v
  && implb (cluster_owned cluster_id v) (dataset_label_ok v).

(** ** Concrete worlds for the examples *)

Module Example.

Definition cluster : UUID.t := 0x6ddfb6c0d2644e77846aaa67e4fe89df.
Definition other_cluster : UUID.t := 0x00112233445566778899aabbccddeeff.
Definition dataset : UUID.t := 0x0f0e0d0c0b0a09080706050403020100.

Definition self : CinderBlockDeviceAPI.t :=
  {| CinderBlockDeviceAPI.cluster_id := cluster |}.

(** [xvda] to [xvdz] *)
Definition xvd_a_to_z : list string :=
  map (fun letter => "xvd" ++ String letter "")
      (list_ascii_of_string Py.ascii_lowercase).

Definition volume (id status : string) (metadata : gmap string string)
  : Volume.t :=
  {| Volume.id := id; Volume.size := inject_Z 1; Volume.status := status;
     Volume.metadata := metadata |}.

Definition tagged (cluster_label dataset_label : string) : gmap string string :=
  <[CLUSTER_ID_LABEL := cluster_label]> (<[DATASET_ID_LABEL := dataset_label]> ∅).

(** A host on which the clock advances by a tenth of a second at each
    reading, with the given listings and [/dev] contents. *)
Definition world (listing : nat -> list Volume.t) (dev : nat -> list string)
  : World :=
  {| reply := fun rqs =>
       match rqs with
       | cinder_create size metadata :: _ =>
           {| Volume.id := "vol-new"; Volume.size := size;
              Volume.status := "creating"; Volume.metadata := metadata |}
       | cinder_set_metadata v _ :: _ => v
       | nova_create_server_volume _ volume_id _ :: _ =>
           volume volume_id "attaching" ∅
       | [] => volume "" "" ∅
       end;
     listing := listing;
     clock := fun n => (inject_Z (Z.of_nat n) * (1 # 10))%Q;
     dev := dev;
     xenstore_name := "instance-6ddfb6c0-d264-4e77-846a-aa67e4fe89df" ++ String "010"%char "";
     requests := [];
     listed := 0; clock_read := 0; dev_looked := 0; slept := 0 |}.

(** The outcome of a computation, without the world after it. *)
Definition outcome {A} (r : option (Result A * World)) : option (Result A) :=
  option_map fst r.

(** The same host with a clock that advances by [step] seconds at each
    reading. *)
Definition world_with_clock (step : Q) (listing : nat -> list Volume.t)
    (dev : nat -> list string) : World :=
  {| reply := reply (world listing dev);
     listing := listing;
     clock := fun n => (inject_Z (Z.of_nat n) * step)%Q;
     dev := dev;
     xenstore_name := xenstore_name (world listing dev);
     requests := [];
     listed := 0; clock_read := 0; dev_looked := 0; slept := 0 |}.

(** The volume [world] answers to a create request, once it is
    available. *)
Definition new_volume (size : Z) : Volume.t :=
  {| Volume.id := "vol-new";
     Volume.size := Byte_to_GB size;
     Volume.status := "available";
     Volume.metadata :=
       tagged (UUID.to_string cluster)
         (UUID.to_string dataset) |}.

(** Nothing is listed at first; the new volume of 1,500,000,000 bytes
    is, with its labels, from the third listing on. *)
Definition new_volume_listing (n : nat) : list Volume.t :=
  if (n <? 2)%nat then [] else [new_volume 1500000000].

(** The world a computation ends in. *)
Definition world_after {A} (r : option (Result A * World)) : World :=
  match r with
  | Some (_, w') => w'
  | None => world (fun _ => []) (fun _ => [])
  end.
End Example.

(** * Properties *)

(** ** The text form of a UUID parses back to it *)

Section UUID_round_trip.

Lemma digit_value_hex_digit (d : Z) :
  0 <= d < 16 -> UUID.digit_value (UUID.hex_digit d) = Some d.
Proof.
  intros Hd.
  assert (d = 0 \/ d = 1 \/ d = 2 \/ d = 3 \/ d = 4 \/ d = 5 \/ d = 6 \/ d = 7 \/
          d = 8 \/ d = 9 \/ d = 10 \/ d = 11 \/ d = 12 \/ d = 13 \/ d = 14 \/
          d = 15) as Hcases by lia.
  repeat (destruct Hcases as [-> | Hcases]; [reflexivity |]).
  subst d. reflexivity.
Qed.

Lemma hex_digit_not_hyphen (d : Z) :
  0 <= d < 16 -> UUID.not_hyphen (UUID.hex_digit d) = true.
Proof.
  intros Hd.
  assert (d = 0 \/ d = 1 \/ d = 2 \/ d = 3 \/ d = 4 \/ d = 5 \/ d = 6 \/ d = 7 \/
          d = 8 \/ d = 9 \/ d = 10 \/ d = 11 \/ d = 12 \/ d = 13 \/ d = 14 \/
          d = 15) as Hcases by lia.
  repeat (destruct Hcases as [-> | Hcases]; [reflexivity |]).
  subst d. reflexivity.
Qed.

Lemma hex_of_length (k : nat) (n : Z) : length (UUID.hex_of k n) = k.
Proof.
  revert n. induction k as [| k IH]; intros n; simpl; [reflexivity |].
  rewrite length_app, IH. simpl. lia.
Qed.

Lemma hex_of_no_hyphen (k : nat) (n : Z) :
  Forall (fun c => UUID.not_hyphen c = true) (UUID.hex_of k n).
Proof.
  revert n. induction k as [| k IH]; intros n; simpl; [constructor |].
  apply Forall_app. split; [apply IH |].
  constructor; [| constructor].
  apply hex_digit_not_hyphen. apply Z.mod_pos_bound. lia.
Qed.

Lemma filter_no_hyphen (l : list ascii) :
  Forall (fun c => UUID.not_hyphen c = true) l ->
  filter (fun c => UUID.not_hyphen c = true) l = l.
Proof.
  induction 1 as [| c l Hc _ IH]; [reflexivity |].
  rewrite filter_cons_True by exact Hc. now rewrite IH.
Qed.

Lemma filter_hyphenate (hex : list ascii) :
  Forall (fun c => UUID.not_hyphen c = true) hex ->
  filter (fun c => UUID.not_hyphen c = true) (UUID.hyphenate hex) = hex.
Proof.
  intros Hhex. unfold UUID.hyphenate.
  assert (Hpart : forall a b,
    Forall (fun c => UUID.not_hyphen c = true) (firstn a (skipn b hex))).
  { intros a b. apply Forall_take, Forall_drop, Hhex. }
  assert (Hhy : ¬ UUID.not_hyphen UUID.hyphen = true) by (cbv; discriminate).
  repeat (rewrite filter_app || rewrite filter_cons_False by exact Hhy).
  rewrite (filter_no_hyphen (firstn 8 hex))
    by (apply Forall_take, Hhex).
  rewrite !filter_no_hyphen by (apply Hpart || apply Forall_drop, Hhex).
  replace (skipn 20 hex) with (skipn 4 (skipn 16 hex)) by (now rewrite skipn_skipn).
  rewrite firstn_skipn.
  replace (skipn 16 hex) with (skipn 4 (skipn 12 hex)) by (now rewrite skipn_skipn).
  rewrite firstn_skipn.
  replace (skipn 12 hex) with (skipn 4 (skipn 8 hex)) by (now rewrite skipn_skipn).
  rewrite firstn_skipn.
  apply firstn_skipn.
Qed.

(** What the steps of the constructor look at in a character: a
    hexadecimal digit or a hyphen is none of it. *)
Lemma canonical_char (c : ascii) :
  is_Some (UUID.digit_value c) \/ c = UUID.hyphen ->
  Ascii.eqb "u" c = false /\
  Py.among (list_ascii_of_string "{}") c = false.
Proof.
  intros [[d Hd] | ->]; [| split; reflexivity].
  revert Hd.
  destruct c as [[] [] [] [] [] [] [] []]; (discriminate || (intros _; split; reflexivity)).
Qed.

Lemma digit_char (c : ascii) :
  is_Some (UUID.digit_value c) ->
  Py.unicode_is_space c = false /\ Py.is_space c = false /\
  (nat_of_ascii c =? 0)%nat = false /\
  Ascii.eqb c "+" = false /\ Ascii.eqb c "-" = false /\
  Ascii.eqb c "x" = false /\ Ascii.eqb c "X" = false.
Proof.
  intros [d Hd]. revert Hd.
  destruct c as [[] [] [] [] [] [] [] []];
    (discriminate || (intros _; repeat split; reflexivity)).
Qed.

Lemma hex_of_digits (k : nat) (n : Z) :
  Forall (fun c => is_Some (UUID.digit_value c)) (UUID.hex_of k n).
Proof.
  revert n. induction k as [| k IH]; intros n; simpl; [constructor |].
  apply Forall_app. split; [apply IH |].
  constructor; [| constructor].
  rewrite digit_value_hex_digit by (apply Z.mod_pos_bound; lia). eauto.
Qed.

Lemma hyphenate_canonical (hex : list ascii) :
  Forall (fun c => is_Some (UUID.digit_value c)) hex ->
  Forall (fun c => is_Some (UUID.digit_value c) \/ c = UUID.hyphen)
    (UUID.hyphenate hex).
Proof.
  intros Hhex.
  assert (Hweak : Forall (fun c => is_Some (UUID.digit_value c) \/ c = UUID.hyphen) hex).
  { eapply Forall_impl; [exact Hhex | auto]. }
  unfold UUID.hyphenate.
  repeat (apply Forall_app; split; [apply Forall_take; try apply Forall_drop; exact Hweak |];
          constructor; [now right |]).
  apply Forall_drop, Hweak.
Qed.

(** [replace] finds nothing to remove in a text that lacks the first
    character of [old]. *)
Lemma replace_with_empty_absent (s old : list ascii) (o : ascii) :
  Forall (fun c => Ascii.eqb o c = false) s ->
  Py.replace_with_empty s (o :: old) = s.
Proof.
  unfold Py.replace_with_empty.
  induction 1 as [| c s Hc _ IH]; [reflexivity |].
  cbn [Py.replace_from Py.starts_with]. rewrite Hc. cbn [andb]. now rewrite IH.
Qed.

Lemma lstrip_of_absent (chars s : list ascii) :
  Forall (fun c => Py.among chars c = false) s -> Py.lstrip_of chars s = s.
Proof. destruct 1 as [| c s Hc _]; [reflexivity |]. simpl. now rewrite Hc. Qed.

Lemma rstrip_of_absent (chars s : list ascii) :
  Forall (fun c => Py.among chars c = false) s -> Py.rstrip_of chars s = s.
Proof.
  induction 1 as [| c s Hc _ IH]; [reflexivity |].
  cbn [Py.rstrip_of]. rewrite IH, Hc. now destruct s.
Qed.

Lemma strip_of_absent (chars s : list ascii) :
  Forall (fun c => Py.among chars c = false) s -> Py.strip_of chars s = s.
Proof.
  intros Hs. unfold Py.strip_of.
  now rewrite lstrip_of_absent, rstrip_of_absent.
Qed.

Lemma encode_decimal_digits (position : nat) (s : list ascii) :
  Forall (fun c => is_Some (UUID.digit_value c)) s ->
  UUID.encode_decimal position s = inr s.
Proof.
  intros Hs. revert position.
  induction Hs as [| c s Hc _ IH]; intros position; [reflexivity |].
  destruct (digit_char c Hc) as (Hspace & _ & Hnul & _).
  cbn [UUID.encode_decimal]. now rewrite Hspace, Hnul, IH.
Qed.

Lemma no_NUL_in_digits (s : list ascii) :
  Forall (fun c => is_Some (UUID.digit_value c)) s ->
  existsb (fun c => (nat_of_ascii c =? 0)%nat) s = false.
Proof.
  induction 1 as [| c s Hc _ IH]; [reflexivity |].
  destruct (digit_char c Hc) as (_ & _ & Hnul & _).
  cbn [existsb]. now rewrite Hnul, IH.
Qed.

Lemma scan_digits_hex_of (k : nat) (n acc : Z) (rest : list ascii) :
  UUID.scan_digits acc (UUID.hex_of k n ++ rest) =
  UUID.scan_digits (acc * 16 ^ Z.of_nat k + n mod 16 ^ Z.of_nat k) rest.
Proof.
  revert n acc rest. induction k as [| k IH]; intros n acc rest.
  - simpl. rewrite Z.mod_1_r. f_equal. lia.
  - cbn [UUID.hex_of]. rewrite <- app_assoc. rewrite IH.
    cbn [app UUID.scan_digits].
    rewrite digit_value_hex_digit by (apply Z.mod_pos_bound; lia).
    f_equal.
    rewrite Nat2Z.inj_succ, Z.pow_succ_r by lia.
    rewrite (Z.rem_mul_r n 16 (16 ^ Z.of_nat k)) by lia.
    lia.
Qed.

(** [long] reads two or more digits written by ['%x'] as the number
    they denote. *)
Lemma long_from_string_hex_of (k : nat) (n : Z) :
  UUID.long_from_string (UUID.hex_of (S (S k)) n)
  = Some (n mod 16 ^ Z.of_nat (S (S k))).
Proof.
  pose proof (hex_of_digits (S (S k)) n) as Hdigits.
  pose proof (hex_of_length (S (S k)) n) as Hlen.
  pose proof (scan_digits_hex_of (S (S k)) n 0 []) as Hscan.
  rewrite app_nil_r in Hscan.
  destruct (UUID.hex_of (S (S k)) n) as [| c0 [| c1 hex]]; [discriminate .. |].
  apply Forall_cons in Hdigits as [H0 Hdigits].
  apply Forall_cons in Hdigits as [H1 _].
  destruct (digit_char c0 H0) as (_ & Hspace & _ & Hplus & Hminus & _).
  destruct (digit_char c1 H1) as (_ & _ & _ & _ & _ & Hx & HX).
  unfold UUID.long_from_string.
  cbn [UUID.skip_spaces UUID.skip_sign UUID.skip_0x].
  rewrite Hspace. cbn [UUID.skip_sign]. rewrite Hplus, Hminus.
  cbn [UUID.skip_spaces]. rewrite Hspace. cbn [UUID.skip_0x].
  rewrite Hx, HX, andb_false_r.
  rewrite Hscan. cbn [UUID.scan_digits length Nat.eqb UUID.skip_L UUID.skip_spaces].
  f_equal. lia.
Qed.

Lemma UUID_of_text_to_string (is_unicode : bool) (u : UUID.t) :
  UUID.valid u -> UUID.of_text is_unicode (UUID.to_string u) = inl u.
Proof.
  intros Hu. unfold UUID.of_text, UUID.to_string.
  rewrite list_ascii_of_string_of_list_ascii.
  pose proof (hyphenate_canonical _ (hex_of_digits 32 u)) as Hcanonical.
  assert (Hno_u : Forall (fun c => Ascii.eqb "u" c = false)
                    (UUID.hyphenate (UUID.hex_of 32 u))).
  { eapply Forall_impl; [exact Hcanonical |]. intros c Hc. now apply canonical_char. }
  assert (Hno_brace : Forall (fun c => Py.among (list_ascii_of_string "{}") c = false)
                    (UUID.hyphenate (UUID.hex_of 32 u))).
  { eapply Forall_impl; [exact Hcanonical |]. intros c Hc. now apply canonical_char. }
  change (list_ascii_of_string "urn:") with ("u"%char :: list_ascii_of_string "rn:").
  change (list_ascii_of_string "uuid:") with ("u"%char :: list_ascii_of_string "uid:").
  rewrite (replace_with_empty_absent _ _ _ Hno_u).
  rewrite (replace_with_empty_absent _ _ _ Hno_u).
  rewrite strip_of_absent by exact Hno_brace.
  rewrite filter_hyphenate by apply hex_of_no_hyphen.
  rewrite hex_of_length. cbn [Nat.eqb negb].
  assert (Hlong : UUID.long is_unicode (UUID.hex_of 32 u) = inl u).
  { unfold UUID.long.
    rewrite encode_decimal_digits, no_NUL_in_digits by apply hex_of_digits.
    rewrite long_from_string_hex_of.
    change (16 ^ Z.of_nat 32) with (2 ^ 128).
    unfold UUID.valid in Hu. rewrite Z.mod_small by lia.
    now destruct is_unicode. }
  rewrite Hlong. unfold UUID.valid in Hu.
  destruct (Z.leb_spec 0 u); [| lia].
  destruct (Z.ltb_spec u (2 ^ 128)); [reflexivity | lia].
Qed.

Lemma UUID_parse_to_string (u : UUID.t) :
  UUID.valid u -> UUID.parse (UUID.to_string u) = Some u.
Proof.
  intros Hu. unfold UUID.parse. now rewrite UUID_of_text_to_string.
Qed.

Lemma UUID_of_to_string (u : UUID.t) :
  UUID.valid u -> UUID_ (UUID.to_string u) = Return u.
Proof.
  intros Hu. unfold UUID_. now rewrite UUID_parse_to_string.
Qed.

Lemma UUID_of_str_to_string (u : UUID.t) :
  UUID.valid u -> UUID_of_str (UUID.to_string u) = Return u.
Proof.
  intros Hu. unfold UUID_of_str. now rewrite UUID_of_text_to_string.
Qed.

End UUID_round_trip.

(** ** Filtering the listing by ownership *)

Section Listing.

Variable cluster_id : UUID.t.

Lemma is_cluster_volume_sound (v : Volume.t) (b : bool) :
  _is_cluster_volume cluster_id v = Return b -> b = cluster_owned cluster_id v.
Proof.
  unfold _is_cluster_volume, cluster_owned, UUID_.
  destruct (Volume.metadata v !! CLUSTER_ID_LABEL) as [label |]; [| congruence].
  destruct (UUID.parse label) as [actual |]; simpl; [| discriminate].
  destruct (UUID.eqb actual cluster_id); congruence.
Qed.

Lemma is_cluster_volume_returns (v : Volume.t) :
  cluster_label_ok v = true ->
  _is_cluster_volume cluster_id v = Return (cluster_owned cluster_id v).
Proof.
  unfold _is_cluster_volume, cluster_owned, cluster_label_ok, UUID_.
  destruct (Volume.metadata v !! CLUSTER_ID_LABEL) as [label |]; [| reflexivity].
  destruct (UUID.parse label) as [actual |]; simpl.
  - destruct (UUID.eqb actual cluster_id); reflexivity.
  - discriminate.
Qed.

Lemma is_cluster_volume_missing_label (v : Volume.t) :
  Volume.metadata v !! CLUSTER_ID_LABEL = None ->
  _is_cluster_volume cluster_id v = Return false.
Proof. unfold _is_cluster_volume. now intros ->. Qed.

Lemma is_cluster_volume_malformed_label (v : Volume.t) (label : string) :
  Volume.metadata v !! CLUSTER_ID_LABEL = Some label ->
  UUID.parse label = None ->
  _is_cluster_volume cluster_id v = Raise (ValueError (UUID_error_message label)).
Proof. unfold _is_cluster_volume, UUID_. now intros -> ->. Qed.

Lemma blockdevicevolume_returns (v : Volume.t) :
  dataset_label_ok v = true ->
  exists record, _blockdevicevolume_from_cinder_volume v = Return record.
Proof.
  unfold _blockdevicevolume_from_cinder_volume, dataset_label_ok, UUID_.
  destruct (Volume.metadata v !! DATASET_ID_LABEL) as [label |]; [| discriminate].
  destruct (UUID.parse label) as [dataset_id |]; simpl.
  - eauto.
  - discriminate.
Qed.

Lemma blockdevicevolume_id (v : Volume.t) (record : BlockDeviceVolume.t) :
  _blockdevicevolume_from_cinder_volume v = Return record ->
  BlockDeviceVolume.blockdevice_id record = Volume.id v.
Proof.
  unfold _blockdevicevolume_from_cinder_volume.
  destruct (Volume.metadata v !! DATASET_ID_LABEL) as [label |]; [| discriminate].
  destruct (UUID_ label); simpl; [| discriminate].
  intros [= <-]. reflexivity.
Qed.

(** When the loop returns, it has appended the records of the
    cluster-owned volumes, in the order of the listing. *)
Lemma list_volumes_loop_sound (vols : list Volume.t)
    (acc records : list BlockDeviceVolume.t) :
  list_volumes_loop cluster_id vols acc = Return records ->
  exists new : list BlockDeviceVolume.t,
    records = (acc ++ new)%list /\
    Forall2 (fun v r => _blockdevicevolume_from_cinder_volume v = Return r)
      (List.filter (cluster_owned cluster_id) vols) new.
Proof.
  revert acc. induction vols as [| v vols IH]; intros acc; cbn [list_volumes_loop].
  - intros [= <-]. exists []. rewrite app_nil_r. split; [reflexivity | constructor].
  - destruct (_is_cluster_volume cluster_id v) as [b |] eqn:Hb; simpl; [| discriminate].
    apply is_cluster_volume_sound in Hb. cbn [List.filter]. rewrite <- Hb.
    destruct b.
    + destruct (_blockdevicevolume_from_cinder_volume v) as [r |] eqn:Hr;
        simpl; [| discriminate].
      intros Hloop. destruct (IH _ Hloop) as (new & -> & Hnew).
      exists (r :: new). rewrite <- app_assoc. split; [reflexivity |].
      constructor; assumption.
    + apply IH.
Qed.

(** The loop returns on a listing of listable volumes. *)
Lemma list_volumes_loop_returns (vols : list Volume.t)
    (acc : list BlockDeviceVolume.t) :
  Forall (fun v => listable cluster_id v = true) vols ->
  exists records, list_volumes_loop cluster_id vols acc = Return records.
Proof.
  intros Hvols. revert acc.
  induction Hvols as [| v vols Hv _ IH]; intros acc; cbn [list_volumes_loop].
  - eauto.
  - unfold listable in Hv. apply andb_prop in Hv as [Hc Hd].
    rewrite (is_cluster_volume_returns v Hc). simpl.
    destruct (cluster_owned cluster_id v); [| apply IH].
    destruct (blockdevicevolume_returns v Hd) as [r ->]. simpl. apply IH.
Qed.

(** It returns on no other listing. *)
Lemma list_volumes_loop_listable (vols : list Volume.t)
    (acc records : list BlockDeviceVolume.t) :
  list_volumes_loop cluster_id vols acc = Return records ->
  Forall (fun v => listable cluster_id v = true) vols.
Proof.
  revert acc. induction vols as [| v vols IH]; intros acc; cbn [list_volumes_loop];
    [constructor |].
  unfold listable, cluster_label_ok, cluster_owned, dataset_label_ok,
    _is_cluster_volume, _blockdevicevolume_from_cinder_volume, UUID_.
  intros Hloop. constructor; [| revert Hloop].
  - destruct (Volume.metadata v !! CLUSTER_ID_LABEL) as [label |]; [| reflexivity].
    destruct (UUID.parse label) as [actual |]; simpl in *; [| discriminate].
    destruct (UUID.eqb actual cluster_id); [| reflexivity].
    destruct (Volume.metadata v !! DATASET_ID_LABEL) as [dlabel |];
      [| discriminate].
    destruct (UUID.parse dlabel); simpl in *; [reflexivity | discriminate].
  - destruct (Volume.metadata v !! CLUSTER_ID_LABEL) as [label |]; [| apply IH].
    destruct (UUID.parse label) as [actual |]; simpl; [| discriminate].
    destruct (UUID.eqb actual cluster_id); [| apply IH].
    destruct (Volume.metadata v !! DATASET_ID_LABEL) as [dlabel |];
      [| discriminate].
    destruct (UUID.parse dlabel); simpl; [apply IH | discriminate].
Qed.

Lemma records_ids (vols : list Volume.t) (records : list BlockDeviceVolume.t) :
  Forall2 (fun v r => _blockdevicevolume_from_cinder_volume v = Return r)
    vols records ->
  map BlockDeviceVolume.blockdevice_id records = map Volume.id vols.
Proof.
  induction 1 as [| v r vols records Hr _ IH]; [reflexivity |].
  simpl. now rewrite (blockdevicevolume_id v r Hr), IH.
Qed.

End Listing.

Lemma NoDup_map_In_eq {A B} (f : A -> B) (l : list A) (x y : A) :
  NoDup (map f l) -> In x l -> In y l -> f x = f y -> x = y.
Proof.
  induction l as [| a l IH]; simpl; [contradiction |].
  intros Hnd. apply NoDup_cons in Hnd as [Hnotin Hnd].
  assert (Hin : forall z, In z l -> f a = f z -> False).
  { intros z Hz Heq. apply Hnotin. apply list_elem_of_In. rewrite Heq. now apply in_map. }
  intros [-> | Hx] [-> | Hy] Heq; try reflexivity.
  - exfalso; eauto.
  - exfalso; eauto.
  - now apply IH.
Qed.

(** ** [list_volumes] *)

Lemma list_volumes_unfold (self : CinderBlockDeviceAPI.t) (w : World) :
  exists w',
    CinderBlockDeviceAPI.list_volumes self w =
      Some (list_volumes_loop (CinderBlockDeviceAPI.cluster_id self)
              (listing w (listed w)) [], w') /\
    requests w' = requests w /\ dev_looked w' = dev_looked w /\
    dev w' = dev w /\ xenstore_name w' = xenstore_name w /\
    reply w' = reply w.
Proof.
  unfold CinderBlockDeviceAPI.list_volumes, cinder_list, lift, mbind, M_bind.
  eexists. split; [reflexivity |]. simpl. repeat split.
Qed.

(** C1 (amended).  On a provider listing in which every cluster label
    that is present is the text of a UUID and every cluster-owned volume
    has a well-formed dataset label, [list_volumes] returns, and its
    records are those of the cluster-owned volumes, in the order of the
    listing: with distinct provider ids, a listed volume's id is among
    the records' ids if and only if the volume is cluster-owned.  A
    volume without the cluster label is excluded by the filter, which
    returns [False] on it without raising. *)
Theorem list_volumes_filters_by_cluster
    (self : CinderBlockDeviceAPI.t) (w : World) :
  Forall (fun v => listable (CinderBlockDeviceAPI.cluster_id self) v = true)
    (listing w (listed w)) ->
  exists records w',
    CinderBlockDeviceAPI.list_volumes self w = Some (Return records, w') /\
    Forall2 (fun v r => _blockdevicevolume_from_cinder_volume v = Return r)
      (List.filter (cluster_owned (CinderBlockDeviceAPI.cluster_id self))
         (listing w (listed w)))
      records /\
    (NoDup (map Volume.id (listing w (listed w))) ->
     forall v, In v (listing w (listed w)) ->
       (In (Volume.id v) (map BlockDeviceVolume.blockdevice_id records) <->
        cluster_owned (CinderBlockDeviceAPI.cluster_id self) v = true)) /\
    (forall v, In v (listing w (listed w)) ->
       Volume.metadata v !! CLUSTER_ID_LABEL = None ->
       _is_cluster_volume (CinderBlockDeviceAPI.cluster_id self) v = Return false /\
       cluster_owned (CinderBlockDeviceAPI.cluster_id self) v = false).
Proof.
  intros Hvols.
  destruct (list_volumes_unfold self w) as (w' & Hrun & _).
  destruct (list_volumes_loop_returns _ _ [] Hvols) as [records Hloop].
  exists records, w'. rewrite Hrun, Hloop. split; [reflexivity |].
  apply list_volumes_loop_sound in Hloop as (new & -> & Hnew). simpl.
  split; [exact Hnew |]. split.
  - intros Hnd v Hv. rewrite (records_ids _ _ Hnew). split.
    + intros Hin. apply in_map_iff in Hin as (v' & Hid & Hv').
      apply filter_In in Hv' as [Hv' Howned].
      now rewrite <- (NoDup_map_In_eq Volume.id _ v' v Hnd Hv' Hv Hid).
    + intros Howned. apply in_map. apply filter_In. now split.
  - intros v _ Hnone. split.
    + now apply is_cluster_volume_missing_label.
    + unfold cluster_owned. now rewrite Hnone.
Qed.

(** A listing with a volume of this cluster, one of another cluster and
    one without labels: only the first is returned. *)
Lemma list_volumes_filters_by_cluster_witness :
  exists records w',
    CinderBlockDeviceAPI.list_volumes Example.self
      (Example.world
         (fun _ =>
            [Example.volume "vol-1" "available"
               (Example.tagged (UUID.to_string Example.cluster)
                  (UUID.to_string Example.dataset));
             Example.volume "vol-2" "available"
               (Example.tagged (UUID.to_string Example.other_cluster)
                  (UUID.to_string Example.dataset));
             Example.volume "vol-3" "available" ∅])
         (fun _ => []))
    = Some (Return records, w') /\
    map BlockDeviceVolume.blockdevice_id records = ["vol-1"].
Proof.
  destruct (list_volumes_filters_by_cluster Example.self
              (Example.world
                 (fun _ =>
                    [Example.volume "vol-1" "available"
                       (Example.tagged (UUID.to_string Example.cluster)
                          (UUID.to_string Example.dataset));
                     Example.volume "vol-2" "available"
                       (Example.tagged (UUID.to_string Example.other_cluster)
                          (UUID.to_string Example.dataset));
                     Example.volume "vol-3" "available" ∅])
                 (fun _ => [])))
    as (records & w' & Hrun & Hrecords & _).
  - repeat constructor; vm_compute; reflexivity.
  - exists records, w'. split; [exact Hrun |].
    rewrite (records_ids _ _ Hrecords). vm_compute. reflexivity.
Defined.

(** C1 as stated fails.  A listed volume whose cluster label is not the
    text of a UUID makes [list_volumes] raise [ValueError]: the volume
    is not filtered out and the cluster-owned volume listed with it is
    not returned.  A cluster-owned volume whose dataset label is not the
    text of a UUID makes it raise as well. *)
Lemma list_volumes_raises_on_malformed_label :
  Example.outcome
    (CinderBlockDeviceAPI.list_volumes Example.self
       (Example.world
          (fun _ =>
             [Example.volume "vol-1" "available"
                (Example.tagged (UUID.to_string Example.cluster)
                   (UUID.to_string Example.dataset));
              Example.volume "vol-2" "available"
                (<[CLUSTER_ID_LABEL := "not-a-uuid"]> ∅)])
          (fun _ => [])))
  = Some (Raise (ValueError "badly formed hexadecimal UUID string")) /\
  Example.outcome
    (CinderBlockDeviceAPI.list_volumes Example.self
       (Example.world
          (fun _ =>
             [Example.volume "vol-1" "available"
                (Example.tagged (UUID.to_string Example.cluster)
                   "not-a-uuid")])
          (fun _ => [])))
  = Some (Raise (ValueError "badly formed hexadecimal UUID string")).
Proof. split; vm_compute; reflexivity. Qed.

(** ** Sequencing in the world *)

Lemma bind_Return_inv {A B} (m : M A) (f : A -> M B) (w w' : World) (b : B) :
  (m ≫= f) w = Some (Return b, w') ->
  exists a w1, m w = Some (Return a, w1) /\ f a w1 = Some (Return b, w').
Proof.
  unfold mbind, M_bind.
  destruct (m w) as [[[a | e] w1] |]; try discriminate. eauto.
Qed.

Lemma bind_Return {A B} (m : M A) (f : A -> M B) (w w1 : World) (a : A) :
  m w = Some (Return a, w1) -> (m ≫= f) w = f a w1.
Proof. unfold mbind, M_bind. now intros ->. Qed.

Lemma bind_Raise {A B} (m : M A) (f : A -> M B) (w w1 : World) (e : Exc) :
  m w = Some (Raise e, w1) -> (m ≫= f) w = Some (Raise e, w1).
Proof. unfold mbind, M_bind. now intros ->. Qed.

(** ** [create_volume] *)

(** The metadata [create_volume] asks for. *)
Lemma requested_dataset_label (cluster_id dataset_id : UUID.t) :
  (<[CLUSTER_ID_LABEL := UUID.to_string cluster_id]>
     (<[DATASET_ID_LABEL := UUID.to_string dataset_id]> ∅) : gmap string string)
    !! DATASET_ID_LABEL = Some (UUID.to_string dataset_id).
Proof.
  rewrite lookup_insert_ne by discriminate. apply lookup_insert_eq.
Qed.

Lemma create_volume_inv (fuel : nat) (self : CinderBlockDeviceAPI.t)
    (dataset_id : UUID.t) (size : Z) (w w' : World)
    (record : BlockDeviceVolume.t) :
  CinderBlockDeviceAPI.create_volume fuel self dataset_id size w
    = Some (Return record, w') ->
  _blockdevicevolume_from_cinder_volume
    (reply w
       (cinder_create (Byte_to_GB size)
          (<[CLUSTER_ID_LABEL :=
               UUID.to_string (CinderBlockDeviceAPI.cluster_id self)]>
             (<[DATASET_ID_LABEL := UUID.to_string dataset_id]> ∅))
        :: requests w))
    = Return record.
Proof.
  unfold CinderBlockDeviceAPI.create_volume. intros Hrun.
  apply bind_Return_inv in Hrun as (requested & w1 & Hsend & Hrun).
  apply bind_Return_inv in Hrun as (created & w2 & _ & Hrun).
  apply bind_Return_inv in Hrun as (? & w3 & _ & Hrun).
  unfold send in Hsend. injection Hsend as <- _.
  unfold lift in Hrun. now injection Hrun as -> _.
Qed.

(** C2.  A successful [create_volume] returns the record of the volume
    the provider answered to the create request, whatever the listings
    polled afterwards show; when that volume carries the requested
    metadata, the record's [dataset_id] is the [dataset_id] asked for,
    and its [host] is [None]. *)
Theorem create_volume_returns_requested_volume
    (fuel : nat) (self : CinderBlockDeviceAPI.t) (dataset_id : UUID.t)
    (size : Z) (w w' : World) (record : BlockDeviceVolume.t)
    (metadata : gmap string string) (requested_volume : Volume.t) :
  UUID.valid dataset_id ->
  metadata =
    <[CLUSTER_ID_LABEL := UUID.to_string (CinderBlockDeviceAPI.cluster_id self)]>
      (<[DATASET_ID_LABEL := UUID.to_string dataset_id]> ∅) ->
  requested_volume =
    reply w (cinder_create (Byte_to_GB size) metadata :: requests w) ->
  CinderBlockDeviceAPI.create_volume fuel self dataset_id size w
    = Some (Return record, w') ->
  _blockdevicevolume_from_cinder_volume requested_volume = Return record /\
  BlockDeviceVolume.host record = None /\
  (Volume.metadata requested_volume = metadata ->
   BlockDeviceVolume.dataset_id record = dataset_id).
Proof.
  intros Hvalid -> -> Hrun. apply create_volume_inv in Hrun.
  split; [exact Hrun |].
  unfold _blockdevicevolume_from_cinder_volume in Hrun.
  split.
  - destruct (Volume.metadata _ !! DATASET_ID_LABEL); [| discriminate].
    destruct (UUID_ _); simpl in Hrun; [| discriminate].
    now injection Hrun as <-.
  - intros Hmeta. rewrite Hmeta, requested_dataset_label in Hrun.
    rewrite (UUID_of_to_string _ Hvalid) in Hrun. simpl in Hrun.
    now injection Hrun as <-.
Qed.

(** Reading a run back from its outcome. *)
Lemma outcome_Return_inv {A} (r : option (Result A * World)) (a : A) :
  Example.outcome r = Some (Return a) -> exists w', r = Some (Return a, w').
Proof.
  destruct r as [[[a' | e] w'] |]; simpl; try discriminate.
  intros [= ->]. eauto.
Qed.

Lemma outcome_Raise_inv {A} (r : option (Result A * World)) (e : Exc) :
  Example.outcome r = @Some (Result A) (Raise e) ->
  exists w', r = Some (Raise e, w').
Proof.
  destruct r as [[[a' | e'] w'] |]; simpl; try discriminate.
  intros [= ->]. eauto.
Qed.

(** A provider that answers with the requested metadata, lists the new
    volume as available at the third poll, and lists it without its
    metadata: the record is still the requested one. *)
Lemma create_volume_returns_requested_volume_witness :
  exists record w',
    CinderBlockDeviceAPI.create_volume 10 Example.self Example.dataset
      (10 * 2 ^ 30)
      (Example.world
         (fun n => if (n <? 2)%nat then []
                   else [Example.volume "vol-new" "available" ∅])
         (fun _ => []))
    = Some (Return record, w') /\
    BlockDeviceVolume.host record = None /\
    BlockDeviceVolume.dataset_id record = Example.dataset.
Proof.
  assert (Hout :
    Example.outcome
      (CinderBlockDeviceAPI.create_volume 10 Example.self Example.dataset
         (10 * 2 ^ 30)
         (Example.world
            (fun n => if (n <? 2)%nat then []
                      else [Example.volume "vol-new" "available" ∅])
            (fun _ => [])))
    = Some (Return {| BlockDeviceVolume.blockdevice_id := "vol-new";
                      BlockDeviceVolume.size := 10 * 2 ^ 30;
                      BlockDeviceVolume.host := None;
                      BlockDeviceVolume.dataset_id := Example.dataset |}))
    by (vm_compute; reflexivity).
  destruct (outcome_Return_inv _ _ Hout) as [w' Hrun].
  eexists; exists w'. split; [exact Hrun |].
  assert (Hvalid : UUID.valid Example.dataset)
    by (unfold UUID.valid, Example.dataset; lia).
  destruct (create_volume_returns_requested_volume _ _ _ _ _ _ _ _ _
              Hvalid eq_refl eq_refl Hrun)
    as (_ & Hhost & Hdataset).
  split; [exact Hhost |]. apply Hdataset. vm_compute. reflexivity.
Defined.

(** ** Rounding to a double *)

Section Float_facts.

Local Open Scope Q_scope.

Lemma two_neq_0 : ~ 2 == 0.
Proof. discriminate. Qed.

Lemma pow2_pos (k : Z) : 0 < 2 ^ k.
Proof. apply Qpower_0_lt. reflexivity. Qed.

Lemma pow2_succ (k : Z) : 2 ^ (k + 1) == 2 * 2 ^ k.
Proof. rewrite Qpower_plus by apply two_neq_0. rewrite Qpower_1_r. ring. Qed.

Lemma pow2_inject (k : Z) : (0 <= k)%Z -> inject_Z (2 ^ k) == 2 ^ k.
Proof. intros Hk. now rewrite Zpower_Qpower. Qed.

Lemma ilog2_spec (a : Q) :
  0 < a -> 2 ^ Float.ilog2 a <= a /\ a < 2 ^ (Float.ilog2 a + 1).
Proof.
  intros Ha. destruct a as [n d]. unfold Float.ilog2. cbn [Qnum Qden].
  assert (Hn : (0 < n)%Z).
  { unfold Qlt in Ha. cbn in Ha. lia. }
  set (ln := Z.log2 n). set (ld := Z.log2 (Zpos d)).
  assert (Hln : (2 ^ ln <= n < 2 ^ (ln + 1))%Z).
  { unfold ln. pose proof (Z.log2_spec n Hn). now rewrite <- Z.add_1_r in H. }
  assert (Hld : (2 ^ ld <= Zpos d < 2 ^ (ld + 1))%Z).
  { unfold ld. pose proof (Z.log2_spec (Zpos d) eq_refl).
    now rewrite <- Z.add_1_r in H. }
  assert (Hln0 : (0 <= ln)%Z) by apply Z.log2_nonneg.
  assert (Hld0 : (0 <= ld)%Z) by apply Z.log2_nonneg.
  assert (Hnq : 2 ^ ln <= inject_Z n /\ inject_Z n < 2 ^ (ln + 1)).
  { rewrite <- !pow2_inject by lia. rewrite <- Zle_Qle, <- Zlt_Qlt. exact Hln. }
  assert (Hdq : 2 ^ ld <= inject_Z (Zpos d) /\ inject_Z (Zpos d) < 2 ^ (ld + 1)).
  { rewrite <- !pow2_inject by lia. rewrite <- Zle_Qle, <- Zlt_Qlt. exact Hld. }
  assert (Hd0 : 0 < inject_Z (Zpos d)) by reflexivity.
  assert (Heq : n # d == inject_Z n / inject_Z (Zpos d)) by apply Qmake_Qdiv.
  assert (Hup : n # d < 2 ^ (ln - ld + 1)).
  { rewrite Heq. apply Qlt_shift_div_r; [exact Hd0 |].
    apply Qlt_le_trans with (2 ^ (ln + 1)); [apply Hnq |].
    replace (ln + 1)%Z with ((ln - ld + 1) + ld)%Z by lia.
    rewrite Qpower_plus by apply two_neq_0.
    apply Qmult_le_l; [apply pow2_pos | apply Hdq]. }
  assert (Hlow : 2 ^ (ln - ld - 1) < n # d).
  { rewrite Heq. apply Qlt_shift_div_l; [exact Hd0 |].
    apply Qlt_le_trans with (2 ^ ln); [| apply Hnq].
    replace ln with ((ln - ld - 1) + (ld + 1))%Z at 2 by lia.
    rewrite Qpower_plus by apply two_neq_0.
    apply Qmult_lt_l; [apply pow2_pos | apply Hdq]. }
  destruct (Qle_bool (2 ^ (ln - ld)) (n # d)) eqn:Hle.
  - apply Qle_bool_iff in Hle. split; [exact Hle | exact Hup].
  - split; [now apply Qlt_le_weak |].
    replace (ln - ld - 1 + 1)%Z with (ln - ld)%Z by lia.
    apply Qnot_le_lt. intros H. apply Qle_bool_iff in H. congruence.
Qed.

Lemma pow2_le_inv (i j : Z) : 2 ^ i < 2 ^ (j + 1) -> (i <= j)%Z.
Proof.
  intros H. apply Qpower_lt_compat_l_inv in H; [lia | reflexivity].
Qed.

(** The exponent is determined by the value, not by the fraction that
    denotes it. *)
Lemma ilog2_unique (a : Q) (k : Z) :
  2 ^ k <= a -> a < 2 ^ (k + 1) -> Float.ilog2 a = k.
Proof.
  intros Hlow Hup.
  assert (Ha : 0 < a) by (apply Qlt_le_trans with (2 ^ k); [apply pow2_pos | exact Hlow]).
  destruct (ilog2_spec a Ha) as [Hlow' Hup'].
  assert (Float.ilog2 a <= k)%Z.
  { apply pow2_le_inv. now apply Qle_lt_trans with a. }
  assert (k <= Float.ilog2 a)%Z.
  { apply pow2_le_inv. now apply Qle_lt_trans with a. }
  lia.
Qed.

Lemma ilog2_comp (a b : Q) : 0 < a -> a == b -> Float.ilog2 a = Float.ilog2 b.
Proof.
  intros Ha Hab. destruct (ilog2_spec a Ha) as [Hlow Hup].
  symmetry. apply ilog2_unique; now rewrite <- Hab.
Qed.

Lemma round_half_even_comp (x y : Q) :
  x == y -> Float.round_half_even x = Float.round_half_even y.
Proof.
  intros Hxy. unfold Float.round_half_even.
  rewrite (Qfloor_comp x y Hxy).
  assert (Hc : (x - inject_Z (Qfloor y) ?= 1 # 2) = (y - inject_Z (Qfloor y) ?= 1 # 2)).
  { apply Qcompare_comp; [now rewrite Hxy | reflexivity]. }
  now rewrite Hc.
Qed.

Lemma round_half_even_error (x : Q) :
  Qabs (inject_Z (Float.round_half_even x) - x) <= 1 # 2.
Proof.
  unfold Float.round_half_even.
  pose proof (Qfloor_le x) as Hlow. pose proof (Qlt_floor x) as Hup.
  rewrite inject_Z_plus in Hup. change (inject_Z 1) with 1 in Hup.
  set (f := Qfloor x) in *.
  apply Qabs_Qle_condition.
  destruct (x - inject_Z f ?= 1 # 2) eqn:Hc.
  - apply Qeq_alt in Hc.
    destruct (Z.even f); rewrite ?inject_Z_plus;
      change (inject_Z 1) with 1 in *; split; lra.
  - apply Qlt_alt in Hc. split; lra.
  - apply Qgt_alt in Hc. rewrite inject_Z_plus.
    change (inject_Z 1) with 1 in *. split; lra.
Qed.

Lemma round_half_even_integer (k : Z) :
  Float.round_half_even (inject_Z k) = k.
Proof.
  unfold Float.round_half_even. rewrite Qfloor_Z.
  assert (Hc : (inject_Z k - inject_Z k ?= 1 # 2) = Lt).
  { apply Qlt_alt. assert (H0 : inject_Z k - inject_Z k == 0) by ring. rewrite H0. reflexivity. }
  now rewrite Hc.
Qed.

Lemma round_half_even_nonneg (x : Q) :
  0 <= x -> (0 <= Float.round_half_even x)%Z.
Proof.
  intros Hx. unfold Float.round_half_even.
  assert (0 <= Qfloor x)%Z.
  { rewrite <- (Qfloor_Z 0). now apply Qfloor_resp_le. }
  destruct (x - inject_Z (Qfloor x) ?= 1 # 2); [destruct (Z.even _) | |]; lia.
Qed.

(** The value [double] rounds, for a positive argument. *)
Lemma double_positive (x : Q) :
  0 < x ->
  Float.double x ==
  inject_Z (Float.round_half_even (x / 2 ^ (Float.ilog2 x - 52)))
  * 2 ^ (Float.ilog2 x - 52).
Proof.
  intros Hx. unfold Float.double.
  destruct (Qeq_bool x 0) eqn:H0.
  { apply Qeq_bool_iff in H0. lra. }
  assert (Hle : Qle_bool 0 x = true) by (apply Qle_bool_iff; lra).
  rewrite Hle.
  assert (Habs : Qabs x == x) by (apply Qabs_pos; lra).
  assert (Hpos : 0 < Qabs x) by now rewrite Habs.
  rewrite (ilog2_comp (Qabs x) x Hpos Habs).
  rewrite (round_half_even_comp (Qabs x / 2 ^ (Float.ilog2 x - 52))
             (x / 2 ^ (Float.ilog2 x - 52))) by now rewrite Habs.
  reflexivity.
Qed.

Lemma double_opp (x : Q) : x < 0 -> Float.double x == - Float.double (- x).
Proof.
  intros Hx. unfold Float.double.
  destruct (Qeq_bool x 0) eqn:H0.
  { apply Qeq_bool_iff in H0. lra. }
  destruct (Qeq_bool (- x) 0) eqn:H0'.
  { apply Qeq_bool_iff in H0'. lra. }
  assert (Hle : Qle_bool 0 x = false).
  { destruct (Qle_bool 0 x) eqn:H; [| reflexivity]. apply Qle_bool_iff in H. lra. }
  assert (Hle' : Qle_bool 0 (- x) = true) by (apply Qle_bool_iff; lra).
  rewrite Hle, Hle'.
  assert (Habs : Qabs x == Qabs (- x)) by (now rewrite Qabs_opp).
  assert (Hpos : 0 < Qabs x) by (rewrite Qabs_neg; lra).
  rewrite (ilog2_comp (Qabs x) (Qabs (- x)) Hpos Habs).
  rewrite (round_half_even_comp (Qabs x / 2 ^ (Float.ilog2 (Qabs (- x)) - 52))
             (Qabs (- x) / 2 ^ (Float.ilog2 (Qabs (- x)) - 52)))
    by now rewrite Habs.
  reflexivity.
Qed.

Lemma double_zero (x : Q) : x == 0 -> Float.double x == 0.
Proof.
  intros Hx. unfold Float.double.
  apply Qeq_bool_iff in Hx. now rewrite Hx.
Qed.

(** One rounding: the relative error is at most 2^-53. *)
Lemma double_error_positive (x : Q) :
  0 < x ->
  Qabs (Float.double x - x) <= x * (1 # 9007199254740992).
Proof.
  intros Hx. rewrite (double_positive x Hx).
  destruct (ilog2_spec x Hx) as [Hlow _].
  set (e := (Float.ilog2 x - 52)%Z) in *.
  assert (Hpe : 0 < 2 ^ e) by apply pow2_pos.
  pose proof (round_half_even_error (x / 2 ^ e)) as Hr.
  set (m := inject_Z (Float.round_half_even (x / 2 ^ e))) in *.
  assert (Hscale : m * 2 ^ e - x == (m - x / 2 ^ e) * 2 ^ e).
  { field. lra. }
  rewrite Hscale, Qabs_Qmult, (Qabs_pos (2 ^ e)) by lra.
  assert (H52 : 2 ^ Float.ilog2 x == 2 ^ e * 4503599627370496).
  { replace (Float.ilog2 x) with (e + 52)%Z by (unfold e; lia).
    rewrite Qpower_plus by apply two_neq_0. reflexivity. }
  rewrite H52 in Hlow.
  apply Qle_trans with ((1 # 2) * 2 ^ e).
  - apply Qmult_le_compat_r; [exact Hr | lra].
  - lra.
Qed.

Lemma double_error (x : Q) :
  Qabs (Float.double x - x) <= Qabs x * (1 # 9007199254740992).
Proof.
  destruct (Q_dec x 0) as [[Hneg | Hpos] | Hzero].
  - rewrite (double_opp x Hneg), (Qabs_neg x) by lra.
    assert (Hx : 0 < - x) by lra.
    pose proof (double_error_positive (- x) Hx) as H.
    apply Qabs_Qle_condition in H. apply Qabs_Qle_condition. split; lra.
  - rewrite (Qabs_pos x) by lra. now apply double_error_positive.
  - rewrite (double_zero x Hzero), Hzero. cbn. discriminate.
Qed.

Lemma double_nonneg (x : Q) : 0 <= x -> 0 <= Float.double x.
Proof.
  intros Hx. destruct (Qle_lt_or_eq _ _ Hx) as [Hpos | Hzero].
  - rewrite (double_positive x Hpos).
    apply Qmult_le_0_compat; [| apply Qlt_le_weak, pow2_pos].
    change 0 with (inject_Z 0). rewrite <- Zle_Qle.
    apply round_half_even_nonneg.
    apply Qle_shift_div_l; [apply pow2_pos | lra].
  - rewrite double_zero; [lra | now symmetry].
Qed.

Lemma double_comp (x y : Q) : x == y -> Float.double x == Float.double y.
Proof.
  intros Hxy. destruct (Q_dec x 0) as [[Hneg | Hpos] | Hzero].
  - rewrite (double_opp x Hneg), (double_opp y) by lra.
    assert (Hx : 0 < - x) by lra. assert (Hy : 0 < - y) by lra.
    rewrite (double_positive _ Hx), (double_positive _ Hy).
    rewrite (ilog2_comp (- x) (- y) Hx) by now rewrite Hxy.
    rewrite (round_half_even_comp (- x / 2 ^ (Float.ilog2 (- y) - 52))
               (- y / 2 ^ (Float.ilog2 (- y) - 52))) by now rewrite Hxy.
    reflexivity.
  - assert (Hy : 0 < y) by lra.
    rewrite (double_positive _ Hpos), (double_positive _ Hy).
    rewrite (ilog2_comp x y Hpos Hxy).
    rewrite (round_half_even_comp (x / 2 ^ (Float.ilog2 y - 52))
               (y / 2 ^ (Float.ilog2 y - 52))) by now rewrite Hxy.
    reflexivity.
  - rewrite (double_zero x Hzero), (double_zero y); [reflexivity | lra].
Qed.

(** Integers below 2^53 are doubles. *)
Lemma double_integer (n : Z) :
  (0 <= n < 2 ^ 53)%Z -> Float.double (inject_Z n) == inject_Z n.
Proof.
  intros Hn. destruct (Z.eq_dec n 0%Z) as [-> | Hne]; [reflexivity |].
  assert (Hpos : 0 < inject_Z n).
  { change 0 with (inject_Z 0). rewrite <- Zlt_Qlt. lia. }
  rewrite (double_positive _ Hpos).
  destruct (ilog2_spec _ Hpos) as [Hlow Hup].
  set (k := Float.ilog2 (inject_Z n)) in *.
  assert (Hk : (k <= 52)%Z).
  { apply pow2_le_inv. apply Qle_lt_trans with (inject_Z n); [exact Hlow |].
    change (2 ^ (52 + 1)) with (inject_Z (2 ^ 53)). rewrite <- Zlt_Qlt. lia. }
  assert (Hshift : inject_Z n / 2 ^ (k - 52) == inject_Z (n * 2 ^ (52 - k))).
  { rewrite inject_Z_mult, pow2_inject by lia.
    replace (52 - k)%Z with (- (k - 52))%Z by lia.
    rewrite Qpower_opp. reflexivity. }
  rewrite (round_half_even_comp _ _ Hshift), round_half_even_integer.
  rewrite inject_Z_mult, pow2_inject by lia.
  replace (52 - k)%Z with (- (k - 52))%Z by lia.
  rewrite Qpower_opp. field.
  pose proof (pow2_pos (k - 52)). lra.
Qed.

(** [int] moves a float by less than one. *)
Lemma int_of_float_error (x : Q) :
  x - 1 < inject_Z (Py.int_of_float x) /\ inject_Z (Py.int_of_float x) < x + 1.
Proof.
  unfold Py.int_of_float.
  destruct (Qle_bool 0 x).
  - pose proof (Qfloor_le x) as Hlow. pose proof (Qlt_floor x) as Hup.
    rewrite inject_Z_plus in Hup. change (inject_Z 1) with 1 in Hup.
    split; lra.
  - pose proof (Qle_ceiling x) as Hlow. pose proof (Qceiling_lt x) as Hup.
    unfold Z.sub in Hup. rewrite inject_Z_plus in Hup.
    change (inject_Z (- (1))) with (- (1)) in Hup.
    split; lra.
Qed.

Lemma int_of_float_integer (x : Q) (z : Z) :
  x == inject_Z z -> Py.int_of_float x = z.
Proof.
  intros Hx. unfold Py.int_of_float.
  destruct (Qle_bool 0 x).
  - rewrite Hx. apply Qfloor_Z.
  - rewrite Hx. apply Qceiling_Z.
Qed.

(** The error of one rounding, for an argument of bounded size. *)
Lemma double_error_within (x bound : Q) :
  Qabs x <= bound ->
  - (bound * (1 # 9007199254740992)) <= Float.double x - x /\
  Float.double x - x <= bound * (1 # 9007199254740992).
Proof.
  intros Hx. pose proof (double_error x) as Herr.
  apply Qabs_Qle_condition in Herr. split; lra.
Qed.

End Float_facts.

(** ** Sizes *)

(** Bytes to GB and back: three roundings, each off by at most 2^-53
    of what it rounds, and then [int], off by less than one. *)
Lemma size_round_trip (size : Z) (x : Q) :
  Z.abs size < 2 ^ 80 ->
  (x == Byte_to_GB size)%Q ->
  Z.abs (Py.int_of_float (GB_to_Byte x) - size) < GB_in_bytes.
Proof.
  intros Hsize Hx. unfold Byte_to_GB, GB_to_Byte in *.
  change (inject_Z GB_in_bytes) with 1000000000%Q in *.
  change GB_in_bytes with 1000000000.
  unfold Qdiv in Hx. change (/ 1000000000)%Q with (1 # 1000000000)%Q in Hx.
  assert (Hs : (Qabs (inject_Z size) <= 1208925819614629174706176)%Q).
  { apply Qabs_Qle_condition.
    change 1208925819614629174706176%Q with (inject_Z (2 ^ 80)).
    change (- inject_Z (2 ^ 80))%Q with (inject_Z (- 2 ^ 80)).
    rewrite <- !Zle_Qle. lia. }
  pose proof (double_error_within _ _ Hs) as [Ha1 Ha2].
  set (s := inject_Z size) in *.
  set (a := Float.double s) in *.
  assert (Hq : (Qabs (a * (1 # 1000000000))
               <= 1208925819614629308923904 * (1 # 1000000000))%Q).
  { apply Qabs_Qle_condition in Hs. destruct Hs. apply Qabs_Qle_condition. split; lra. }
  pose proof (double_error_within _ _ Hq) as [Hg1 Hg2].
  set (g := Float.double (a * (1 # 1000000000))) in *.
  assert (Hp : (Qabs (x * 1000000000) <= 1208925819614629443141633)%Q).
  { apply Qabs_Qle_condition in Hs. destruct Hs. apply Qabs_Qle_condition. split; lra. }
  pose proof (double_error_within _ _ Hp) as [Hb1 Hb2].
  pose proof (int_of_float_error (Float.double (x * 1000000000))) as [Hr1 Hr2].
  set (r := Py.int_of_float (Float.double (x * 1000000000))) in *.
  set (b := Float.double (x * 1000000000)) in *.
  apply Qabs_Qle_condition in Hs. destruct Hs.
  assert (Hopp : (inject_Z (- size) == - s)%Q)
    by (unfold s; now rewrite inject_Z_opp).
  apply Z.abs_lt. rewrite !Zlt_Qlt. unfold Z.sub.
  rewrite inject_Z_plus. fold r.
  change (inject_Z (- (1000000000))) with (- (1000000000))%Q.
  change (inject_Z 1000000000) with 1000000000%Q.
  split; lra.
Qed.

(** Past 2^80 bytes the roundings can lose more than a GB. *)
Lemma size_round_trip_far_off :
  Z.abs (Py.int_of_float (GB_to_Byte (Byte_to_GB (2 ^ 90 + 2 ^ 36)))
         - (2 ^ 90 + 2 ^ 36)) > GB_in_bytes.
Proof. vm_compute. reflexivity. Qed.

(** C3.  For a size below 2^80 bytes: when the provider answers the
    create request with a volume of the requested capacity, the size of
    the record returned by [create_volume] differs from the requested
    size by less than one GB. *)
Theorem create_volume_size_within_one_GB
    (fuel : nat) (self : CinderBlockDeviceAPI.t) (dataset_id : UUID.t)
    (size : Z) (w w' : World) (record : BlockDeviceVolume.t)
    (requested_volume : Volume.t) :
  Z.abs size < 2 ^ 80 ->
  requested_volume =
    reply w
      (cinder_create (Byte_to_GB size)
         (<[CLUSTER_ID_LABEL :=
              UUID.to_string (CinderBlockDeviceAPI.cluster_id self)]>
            (<[DATASET_ID_LABEL := UUID.to_string dataset_id]> ∅))
       :: requests w) ->
  (Volume.size requested_volume == Byte_to_GB size)%Q ->
  CinderBlockDeviceAPI.create_volume fuel self dataset_id size w
    = Some (Return record, w') ->
  Z.abs (BlockDeviceVolume.size record - size) < GB_in_bytes.
Proof.
  intros Hsize -> Hecho Hrun. apply create_volume_inv in Hrun.
  unfold _blockdevicevolume_from_cinder_volume in Hrun.
  destruct (Volume.metadata _ !! DATASET_ID_LABEL); [| discriminate].
  destruct (UUID_ _); simpl in Hrun; [| discriminate].
  injection Hrun as <-. cbn [BlockDeviceVolume.size].
  now apply size_round_trip.
Qed.

(** A request for 15 GiB: the record is one byte short. *)
Lemma create_volume_size_within_one_GB_witness :
  exists record w',
    CinderBlockDeviceAPI.create_volume 10 Example.self Example.dataset
      (15 * 2 ^ 30)
      (Example.world
         (fun n => if (n <? 2)%nat then []
                   else [Example.volume "vol-new" "available" ∅])
         (fun _ => []))
    = Some (Return record, w') /\
    BlockDeviceVolume.size record = 16106127359 /\
    Z.abs (BlockDeviceVolume.size record - 15 * 2 ^ 30) < GB_in_bytes.
Proof.
  assert (Hout :
    Example.outcome
      (CinderBlockDeviceAPI.create_volume 10 Example.self Example.dataset
         (15 * 2 ^ 30)
         (Example.world
            (fun n => if (n <? 2)%nat then []
                      else [Example.volume "vol-new" "available" ∅])
            (fun _ => [])))
    = Some (Return {| BlockDeviceVolume.blockdevice_id := "vol-new";
                      BlockDeviceVolume.size := 16106127359;
                      BlockDeviceVolume.host := None;
                      BlockDeviceVolume.dataset_id := Example.dataset |}))
    by (vm_compute; reflexivity).
  destruct (outcome_Return_inv _ _ Hout) as [w' Hrun].
  eexists; exists w'. split; [exact Hrun |]. split; [reflexivity |].
  refine (create_volume_size_within_one_GB _ _ _ _ _ _ _ _ _ eq_refl _ Hrun).
  - vm_compute. reflexivity.
  - vm_compute. reflexivity.
Defined.

(** ** Polling *)

Section Polling.

Variables (expected_volume : Volume.t) (expected_status : string).
Variables (time_limit start_time : Q).

Lemma Qltb_false (a b : Q) : Qltb a b = false <-> (b <= a)%Q.
Proof.
  unfold Qltb. rewrite negb_false_iff. apply Qle_bool_iff.
Qed.

(** One round that neither finds the volume nor times out. *)
Lemma wait_loop_round (fuel : nat) (w : World) :
  find_listed (listing w (listed w)) (Volume.id expected_volume)
    expected_status = None ->
  Qltb (clock w (clock_read w) - start_time) time_limit = true ->
  wait_loop (S fuel) expected_volume expected_status time_limit start_time w =
  wait_loop fuel expected_volume expected_status time_limit start_time
    {| reply := reply w; listing := listing w; clock := clock w;
       dev := dev w; xenstore_name := xenstore_name w;
       requests := requests w;
       listed := S (listed w); clock_read := S (clock_read w);
       dev_looked := dev_looked w; slept := S (slept w) |}.
Proof.
  intros Hnone Hbelow. cbn [wait_loop].
  unfold mbind, M_bind, cinder_list, time_time, time_sleep. cbn.
  rewrite Hnone. cbn. rewrite Hbelow. reflexivity.
Qed.

Lemma wait_loop_times_out (k : nat) :
  forall (fuel : nat) (w : World),
  (k < fuel)%nat ->
  (forall j, (j < k)%nat ->
     Qltb (clock w (clock_read w + j) - start_time) time_limit = true) ->
  Qltb (clock w (clock_read w + k) - start_time) time_limit = false ->
  (forall j, (j <= k)%nat ->
     find_listed (listing w (listed w + j)) (Volume.id expected_volume)
       expected_status = None) ->
  exists w',
    wait_loop fuel expected_volume expected_status time_limit start_time w =
      Some (Raise (Exception_timed_out expected_volume expected_status
                     (clock w (clock_read w + k) - start_time) time_limit),
            w') /\
    requests w' = requests w.
Proof.
  induction k as [| k IH]; intros fuel w Hfuel Hbelow Hreach Hnone;
    (destruct fuel as [| fuel]; [lia |]).
  - specialize (Hnone 0%nat (Nat.le_refl _)).
    rewrite Nat.add_0_r in Hnone, Hreach |- *.
    cbn [wait_loop]. unfold mbind, M_bind, cinder_list, time_time, raise. cbn.
    rewrite Hnone. cbn. rewrite Hreach. eexists. split; reflexivity.
  - rewrite wait_loop_round.
    + edestruct (IH fuel) as (w' & Hrun & Hreq); cycle 4.
      * exists w'. cbn in Hrun, Hreq. rewrite Nat.add_succ_r.
        split; [exact Hrun | exact Hreq].
      * lia.
      * intros j Hj. cbn. rewrite <- Nat.add_succ_r. apply Hbelow. lia.
      * cbn. rewrite <- Nat.add_succ_r. exact Hreach.
      * intros j Hj. cbn. rewrite <- Nat.add_succ_r. apply Hnone. lia.
    + rewrite <- (Nat.add_0_r (listed w)). apply Hnone. lia.
    + rewrite <- (Nat.add_0_r (clock_read w)). apply Hbelow. lia.
Qed.

Lemma wait_loop_raises_after_limit (fuel : nat) :
  forall (w w' : World) (v : Volume.t) (s : string) (elapsed limit : Q),
  wait_loop fuel expected_volume expected_status time_limit start_time w =
    Some (Raise (Exception_timed_out v s elapsed limit), w') ->
  v = expected_volume /\ s = expected_status /\ limit = time_limit /\
  (time_limit <= elapsed)%Q /\
  exists n, elapsed = (clock w n - start_time)%Q.
Proof.
  induction fuel as [| fuel IH]; intros w w' v s elapsed limit;
    cbn [wait_loop]; [discriminate |].
  unfold mbind, M_bind, cinder_list, time_time, time_sleep, raise, mret, M_ret.
  cbn.
  destruct (find_listed _ _ _); [discriminate |]. cbn.
  destruct (Qltb _ time_limit) eqn:Hlt.
  - intros Hrun. apply IH in Hrun. exact Hrun.
  - intros [= <- <- <- <- <-]. apply Qltb_false in Hlt. eauto 10.
Qed.

(** The volume is returned at the first round whose listing shows it,
    after one sleep per earlier round. *)
Lemma wait_loop_returns (k : nat) :
  forall (fuel : nat) (w : World) (listed_volume : Volume.t),
  (k < fuel)%nat ->
  (forall j, (j < k)%nat ->
     Qltb (clock w (clock_read w + j) - start_time) time_limit = true) ->
  (forall j, (j < k)%nat ->
     find_listed (listing w (listed w + j)) (Volume.id expected_volume)
       expected_status = None) ->
  find_listed (listing w (listed w + k)) (Volume.id expected_volume)
    expected_status = Some listed_volume ->
  exists w',
    wait_loop fuel expected_volume expected_status time_limit start_time w =
      Some (Return listed_volume, w') /\
    requests w' = requests w /\ slept w' = (slept w + k)%nat.
Proof.
  induction k as [| k IH]; intros fuel w listed_volume Hfuel Hbelow Hnone Hfound;
    (destruct fuel as [| fuel]; [lia |]).
  - rewrite Nat.add_0_r in Hfound.
    cbn [wait_loop]. unfold mbind, M_bind, cinder_list, mret, M_ret. cbn.
    rewrite Hfound. eexists. split; [reflexivity |]. cbn.
    split; [reflexivity | lia].
  - rewrite wait_loop_round.
    + edestruct (IH fuel) as (w' & Hrun & Hreq & Hslept); cycle 4.
      * exists w'. split; [exact Hrun |]. cbn in Hreq, Hslept.
        split; [exact Hreq | lia].
      * lia.
      * intros j Hj. cbn. rewrite <- Nat.add_succ_r. apply Hbelow. lia.
      * intros j Hj. cbn. rewrite <- Nat.add_succ_r. apply Hnone. lia.
      * cbn. rewrite <- Nat.add_succ_r. exact Hfound.
    + rewrite <- (Nat.add_0_r (listed w)). apply Hnone. lia.
    + rewrite <- (Nat.add_0_r (clock_read w)). apply Hbelow. lia.
Qed.

End Polling.

Lemma Qltb_true (a b : Q) : Qltb a b = true <-> (a < b)%Q.
Proof.
  unfold Qltb. rewrite negb_true_iff. split.
  - intros H. apply Qnot_le_lt. intros Hle.
    apply Qle_bool_iff in Hle. congruence.
  - intros H. destruct (Qle_bool b a) eqn:Hle; [| reflexivity].
    apply Qle_bool_iff in Hle. exfalso. now apply (Qlt_not_le a b).
Qed.

Lemma find_listed_None (vols : list Volume.t) (id status : string) :
  (forall v, In v vols -> ~ (Volume.id v = id /\ Volume.status v = status)) ->
  find_listed vols id status = None.
Proof.
  induction vols as [| v vols IH]; intros Hnone; [reflexivity |].
  cbn [find_listed].
  destruct (String.eqb_spec (Volume.id v) id) as [Hid |];
    [destruct (String.eqb_spec (Volume.status v) status) as [Hst |] |];
    try (apply IH; intros v' Hv'; apply Hnone; now right).
  exfalso. apply (Hnone v); [now left | now split].
Qed.

Lemma find_listed_Some (vols : list Volume.t) (id status : string)
    (v : Volume.t) :
  find_listed vols id status = Some v ->
  In v vols /\ Volume.id v = id /\ Volume.status v = status.
Proof.
  induction vols as [| v' vols IH]; [discriminate |].
  cbn [find_listed].
  destruct (String.eqb_spec (Volume.id v') id) as [Hid |];
    [destruct (String.eqb_spec (Volume.status v') status) as [Hst |] |];
    try (intros H; apply IH in H as (? & ? & ?); repeat split;
         [now right | assumption..]).
  intros [= <-]. repeat split; [now left | assumption..].
Qed.

(** C4.  Let the clock first show the limit reached at the end of
    round [k] of the loop.  If none of the listings of the rounds up to
    [k] shows a volume with the target's id and the expected status,
    [wait_for_volume] raises the timeout exception, which carries the
    target, the expected status, the elapsed time and the limit, and the
    elapsed time it carries is at least the limit.  And whenever
    [wait_for_volume] raises that exception, the elapsed time in it is
    at least the limit. *)
Theorem wait_for_volume_times_out
    (fuel : nat) (expected_volume : Volume.t) (expected_status : string)
    (time_limit : Q) (w : World) :
  (forall k : nat,
     (k < fuel)%nat ->
     (forall j, (j < k)%nat ->
        (clock w (S (clock_read w) + j) - clock w (clock_read w)
         < time_limit)%Q) ->
     (time_limit
      <= clock w (S (clock_read w) + k) - clock w (clock_read w))%Q ->
     (forall j v, (j <= k)%nat -> In v (listing w (listed w + j)) ->
        ~ (Volume.id v = Volume.id expected_volume /\
           Volume.status v = expected_status)) ->
     exists w',
       wait_for_volume fuel expected_volume expected_status time_limit w =
         Some (Raise (Exception_timed_out expected_volume expected_status
                        (clock w (S (clock_read w) + k)
                         - clock w (clock_read w))
                        time_limit),
               w')) /\
  (forall (w' : World) (v : Volume.t) (s : string) (elapsed limit : Q),
     wait_for_volume fuel expected_volume expected_status time_limit w =
       Some (Raise (Exception_timed_out v s elapsed limit), w') ->
     v = expected_volume /\ s = expected_status /\ limit = time_limit /\
     (time_limit <= elapsed)%Q).
Proof.
  unfold wait_for_volume, mbind, M_bind, time_time. split.
  - intros k Hfuel Hbelow Hreach Hnone.
    edestruct (wait_loop_times_out expected_volume expected_status time_limit
                 (clock w (clock_read w)) k fuel)
      as (w' & Hrun & _); cycle 4.
    + exists w'. cbn in Hrun. exact Hrun.
    + exact Hfuel.
    + intros j Hj. cbn. apply Qltb_true. now apply Hbelow.
    + cbn. now apply Qltb_false.
    + intros j Hj. cbn. apply find_listed_None. intros v. now apply Hnone.
  - intros w' v s elapsed limit Hrun.
    apply wait_loop_raises_after_limit in Hrun as (-> & -> & -> & Hle & _).
    auto.
Qed.

(** Nothing is ever listed, the clock advances by a tenth of a second
    at each reading and the limit is three tenths: the third round times
    out. *)
Lemma wait_for_volume_times_out_witness :
  exists w',
    wait_for_volume 5 (Example.volume "vol-1" "creating" ∅) "available"
      (3 # 10) (Example.world (fun _ => []) (fun _ => []))
    = Some (Raise (Exception_timed_out (Example.volume "vol-1" "creating" ∅)
                     "available"
                     (inject_Z 3 * (1 # 10) - inject_Z 0 * (1 # 10))
                     (3 # 10)),
            w').
Proof.
  apply (proj1 (wait_for_volume_times_out 5
                  (Example.volume "vol-1" "creating" ∅) "available" (3 # 10)
                  (Example.world (fun _ => []) (fun _ => []))) 2%nat).
  - lia.
  - intros j Hj. destruct j as [| [| j]]; [reflexivity | reflexivity | lia].
  - discriminate.
  - intros j v _ [].
Defined.

(** ** The methods left empty *)

(** C8.  [detach_volume], [destroy_volume], [resize_volume] and
    [get_device_path] return [None] and leave the world as it is: no
    request is sent, nothing is listed, the clock and [/dev] are not
    looked at. *)
Theorem unimplemented_methods_are_no_ops
    (self : CinderBlockDeviceAPI.t) (blockdevice_id : string) (size : Z)
    (w : World) :
  CinderBlockDeviceAPI.detach_volume self blockdevice_id w
    = Some (Return tt, w) /\
  CinderBlockDeviceAPI.destroy_volume self blockdevice_id w
    = Some (Return tt, w) /\
  CinderBlockDeviceAPI.resize_volume self blockdevice_id size w
    = Some (Return tt, w) /\
  CinderBlockDeviceAPI.get_device_path self blockdevice_id w
    = Some (Return tt, w).
Proof. repeat split. Qed.

(** ** The device path allocator *)

Lemma ascii_lowercase_get (n : nat) :
  (n < 26)%nat ->
  String.get n Py.ascii_lowercase = Some (ascii_of_nat (97 + n)).
Proof.
  intros Hn. do 26 (destruct n as [| n]; [reflexivity |]). lia.
Qed.

Lemma ascii_lowercase_get_out_of_range (n : nat) :
  (26 <= n)%nat -> String.get n Py.ascii_lowercase = None.
Proof.
  intros Hn. do 26 (destruct n as [| n]; [lia |]). reflexivity.
Qed.

Lemma next_device_unfold (w : World) :
  exists w',
    _next_device w =
      Some (match String.get
                    (length (existing_devices "/dev/xvd"
                               (map FilePath.dev_child (dev w (dev_looked w)))))
                    Py.ascii_lowercase with
            | Some letter => Return ("/dev/xvd" ++ String letter "")
            | None => Raise (IndexError "string index out of range")
            end, w') /\
    requests w' = requests w /\ listed w' = listed w /\
    dev_looked w' = S (dev_looked w) /\ dev w' = dev w /\
    listing w' = listing w /\ clock w' = clock w /\
    clock_read w' = clock_read w /\ reply w' = reply w.
Proof.
  cbv beta iota zeta
    delta [_next_device FilePath.dev_children look_at_dev raise
           mbind M_bind mret M_ret].
  cbn [dev dev_looked].
  destruct (String.get _ Py.ascii_lowercase); eexists; split;
    try reflexivity; cbn; repeat split.
Qed.

(** The basename of a child of [/dev] is its name. *)
Lemma basename_chars_no_slash (l acc : list ascii) :
  Forall (fun c => Ascii.eqb c FilePath.slash = false) l ->
  fold_left (fun (acc : list ascii) c =>
               if Ascii.eqb c FilePath.slash then [] else (acc ++ [c])%list)
            l acc = (acc ++ l)%list.
Proof.
  intros Hl. revert acc.
  induction Hl as [| c l Hc _ IH]; intros acc; simpl.
  - now rewrite app_nil_r.
  - rewrite Hc, IH, <- app_assoc. reflexivity.
Qed.

Lemma basename_dev_child (name : string) :
  Forall (fun c => Ascii.eqb c FilePath.slash = false)
    (list_ascii_of_string name) ->
  FilePath.basename (FilePath.dev_child name) = name.
Proof.
  intros Hname. unfold FilePath.basename, FilePath.dev_child,
    FilePath.basename_chars.
  cbn [FilePath.path]. simpl. change ("" +:+ name) with name.
  rewrite (basename_chars_no_slash _ [] Hname). simpl.
  apply string_of_list_ascii_of_string.
Qed.

(** C9 (amended).  When fewer than 26 entries of [/dev] have a path
    starting with [/dev/xvd] and a basename of four characters,
    [_next_device] returns [/dev/xvd] followed by the lowercase letter
    whose index in the alphabet is the number of those entries. *)
Theorem next_device_next_letter (w : World) (n : nat) :
  n = length (existing_devices "/dev/xvd"
                (map FilePath.dev_child (dev w (dev_looked w)))) ->
  (n < 26)%nat ->
  exists w',
    _next_device w =
      Some (Return ("/dev/xvd" ++ String (ascii_of_nat (97 + n)) ""), w') /\
    requests w' = requests w.
Proof.
  intros -> Hn.
  destruct (next_device_unfold w) as (w' & Hrun & Hreq & _).
  exists w'. rewrite Hrun, (ascii_lowercase_get _ Hn). now split.
Qed.

(** With [xvda], [xvdb] and entries that do not count, the next device
    is [/dev/xvdc]. *)
Lemma next_device_next_letter_witness :
  exists w',
    _next_device
      (Example.world (fun _ => [])
         (fun _ => ["xvda"; "sda"; "xvdb"; "xvda1"; "null"]))
    = Some (Return "/dev/xvdc", w').
Proof.
  destruct (next_device_next_letter
              (Example.world (fun _ => [])
                 (fun _ => ["xvda"; "sda"; "xvdb"; "xvda1"; "null"]))
              2 eq_refl ltac:(lia))
    as (w' & Hrun & _).
  exists w'. exact Hrun.
Defined.

(** C9 as stated fails: with [xvda] to [xvdz] in [/dev] no path is
    returned. *)
Lemma next_device_raises_with_26_devices :
  Example.outcome
    (_next_device (Example.world (fun _ => []) (fun _ => Example.xvd_a_to_z)))
  = Some (Raise (IndexError "string index out of range")).
Proof. vm_compute. reflexivity. Qed.

(** ** Looking a volume up *)

Lemma get_unfold (self : CinderBlockDeviceAPI.t) (blockdevice_id : string)
    (w : World) :
  exists w',
    CinderBlockDeviceAPI._get self blockdevice_id w =
      Some (list_volumes_loop (CinderBlockDeviceAPI.cluster_id self)
              (listing w (listed w)) []
            ≫= (fun volumes => _get_loop volumes blockdevice_id), w') /\
    requests w' = requests w /\ dev_looked w' = dev_looked w /\
    dev w' = dev w /\ xenstore_name w' = xenstore_name w /\
    reply w' = reply w.
Proof.
  destruct (list_volumes_unfold self w) as (w' & Hrun & Hsame).
  exists w'. split; [| exact Hsame].
  unfold CinderBlockDeviceAPI._get, mbind at 1, M_bind. rewrite Hrun.
  destruct (list_volumes_loop _ _ _); reflexivity.
Qed.

Lemma instance_uuid_unfold (w : World) :
  _instance_uuid w =
    Some (UUID_of_str (Py.drop_prefix (String.length "instance-")
                   (Py.rstrip (xenstore_name w))), w).
Proof. reflexivity. Qed.

Lemma get_loop_unknown (volumes : list BlockDeviceVolume.t)
    (blockdevice_id : string) :
  ~ In blockdevice_id (map BlockDeviceVolume.blockdevice_id volumes) ->
  _get_loop volumes blockdevice_id = Raise (UnknownVolume blockdevice_id).
Proof.
  induction volumes as [| v volumes IH]; [reflexivity |]. simpl.
  intros Hnotin. destruct (String.eqb_spec (BlockDeviceVolume.blockdevice_id v)
                             blockdevice_id) as [Heq | _].
  - exfalso. apply Hnotin. now left.
  - apply IH. intros Hin. apply Hnotin. now right.
Qed.

Lemma get_loop_known (volumes : list BlockDeviceVolume.t)
    (blockdevice_id : string) :
  In blockdevice_id (map BlockDeviceVolume.blockdevice_id volumes) ->
  exists volume,
    _get_loop volumes blockdevice_id = Return volume /\
    In volume volumes /\
    BlockDeviceVolume.blockdevice_id volume = blockdevice_id.
Proof.
  induction volumes as [| v volumes IH]; [contradiction |]. simpl.
  intros Hin. destruct (String.eqb_spec (BlockDeviceVolume.blockdevice_id v)
                          blockdevice_id) as [Heq | Hne].
  - exists v. repeat split; [now left | exact Heq].
  - destruct Hin as [Heq | Hin]; [contradiction |].
    destruct (IH Hin) as (volume & Hrun & Hvol & Hid).
    exists volume. repeat split; [exact Hrun | now right | exact Hid].
Qed.

(** ** [attach_volume] on a host with 26 devices *)

(** C10.  On a host where 26 or more entries of [/dev] have a path
    starting with [/dev/xvd] and a basename of four characters, the
    letter lookup of [_next_device] is out of range and raises
    [IndexError] instead of returning a path; [attach_volume] then
    fails without having sent a request, and fails with that
    [IndexError] when the volume is found and the instance id is read. *)
Theorem next_device_index_error (w : World) :
  (26 <= length (existing_devices "/dev/xvd"
                   (map FilePath.dev_child (dev w (dev_looked w)))))%nat ->
  (exists w',
     _next_device w
       = Some (Raise (IndexError "string index out of range"), w') /\
     requests w' = requests w) /\
  (forall (fuel : nat) (self : CinderBlockDeviceAPI.t)
          (blockdevice_id host : string),
     exists e w',
       CinderBlockDeviceAPI.attach_volume fuel self blockdevice_id host w
         = Some (Raise e, w') /\
       requests w' = requests w /\
       (forall unattached_volume w1 local_instance_uuid w2,
          CinderBlockDeviceAPI._get self blockdevice_id w
            = Some (Return unattached_volume, w1) ->
          _instance_uuid w1 = Some (Return local_instance_uuid, w2) ->
          e = IndexError "string index out of range")).
Proof.
  intros Hmany. split.
  - destruct (next_device_unfold w) as (w' & Hrun & Hreq & _).
    exists w'. rewrite Hrun, (ascii_lowercase_get_out_of_range _ Hmany).
    now split.
  - intros fuel self blockdevice_id host.
    unfold CinderBlockDeviceAPI.attach_volume.
    destruct (get_unfold self blockdevice_id w)
      as (w1 & Hget & Hreq1 & Hlooked1 & Hdev1 & _).
    destruct (list_volumes_loop _ _ _ ≫= _) as [unattached | e] in Hget.
    2:{ exists e, w1. rewrite (bind_Raise _ _ _ _ _ Hget).
        repeat split; [exact Hreq1 |]. intros ? ? ? ? Hget'.
        rewrite Hget in Hget'. discriminate Hget'. }
    rewrite (bind_Return _ _ _ _ _ Hget).
    pose proof (instance_uuid_unfold w1) as Huuid.
    destruct (UUID_of_str _) as [uuid | e] in Huuid.
    2:{ exists e, w1. rewrite (bind_Raise _ _ _ _ _ Huuid).
        repeat split; [exact Hreq1 |]. intros ? ? ? ? Hget' Huuid'.
        rewrite Hget in Hget'. injection Hget' as <- <-.
        rewrite Huuid in Huuid'. discriminate Huuid'. }
    rewrite (bind_Return _ _ _ _ _ Huuid).
    destruct (next_device_unfold w1) as (w2 & Hnext & Hreq2 & _).
    rewrite Hdev1, Hlooked1 in Hnext.
    rewrite (ascii_lowercase_get_out_of_range _ Hmany) in Hnext.
    exists (IndexError "string index out of range"), w2.
    rewrite (bind_Raise _ _ _ _ _ Hnext).
    repeat split. congruence.
Qed.

(** A host with [xvda] to [xvdz], and a volume of the cluster to attach. *)
Lemma next_device_index_error_witness :
  exists w',
    CinderBlockDeviceAPI.attach_volume 10 Example.self "vol-1" "192.0.2.1"
      (Example.world
         (fun _ =>
            [Example.volume "vol-1" "available"
               (Example.tagged (UUID.to_string Example.cluster)
                  (UUID.to_string Example.dataset))])
         (fun _ => Example.xvd_a_to_z))
    = Some (Raise (IndexError "string index out of range"), w') /\
    requests w' = [].
Proof.
  destruct (proj2 (next_device_index_error
                     (Example.world
                        (fun _ =>
                           [Example.volume "vol-1" "available"
                              (Example.tagged (UUID.to_string Example.cluster)
                                 (UUID.to_string Example.dataset))])
                        (fun _ => Example.xvd_a_to_z))
                     ltac:(vm_compute; lia))
              10%nat Example.self "vol-1" "192.0.2.1")
    as (e & w' & Hrun & Hreq & _).
  assert (Hout :
    Example.outcome
      (CinderBlockDeviceAPI.attach_volume 10 Example.self "vol-1" "192.0.2.1"
         (Example.world
            (fun _ =>
               [Example.volume "vol-1" "available"
                  (Example.tagged (UUID.to_string Example.cluster)
                     (UUID.to_string Example.dataset))])
            (fun _ => Example.xvd_a_to_z)))
    = Some (Raise (IndexError "string index out of range")))
    by (vm_compute; reflexivity).
  rewrite Hrun in Hout. injection Hout as ->.
  exists w'. split; [exact Hrun | exact Hreq].
Defined.

(** ** [attach_volume] of an unknown volume *)

(** C5 (amended).  On a provider listing that [list_volumes] can map
    (every cluster label present is the text of a UUID and every
    cluster-owned volume has a well-formed dataset label): if no
    cluster-owned volume of the listing has the given id,
    [attach_volume] raises [UnknownVolume] with that id and sends no
    request; if some cluster-owned volume has the id, the lookup returns
    a record with that id. *)
Theorem attach_volume_unknown_volume
    (fuel : nat) (self : CinderBlockDeviceAPI.t)
    (blockdevice_id host : string) (w : World) :
  Forall (fun v => listable (CinderBlockDeviceAPI.cluster_id self) v = true)
    (listing w (listed w)) ->
  ((forall v, In v (listing w (listed w)) ->
      cluster_owned (CinderBlockDeviceAPI.cluster_id self) v = true ->
      Volume.id v <> blockdevice_id) ->
   exists w',
     CinderBlockDeviceAPI.attach_volume fuel self blockdevice_id host w
       = Some (Raise (UnknownVolume blockdevice_id), w') /\
     requests w' = requests w) /\
  ((exists v, In v (listing w (listed w)) /\
      cluster_owned (CinderBlockDeviceAPI.cluster_id self) v = true /\
      Volume.id v = blockdevice_id) ->
   exists volume w',
     CinderBlockDeviceAPI._get self blockdevice_id w
       = Some (Return volume, w') /\
     BlockDeviceVolume.blockdevice_id volume = blockdevice_id).
Proof.
  intros Hvols.
  destruct (get_unfold self blockdevice_id w) as (w1 & Hget & Hreq & _).
  destruct (list_volumes_loop_returns _ _ [] Hvols) as [records Hloop].
  rewrite Hloop in Hget. cbn in Hget.
  apply list_volumes_loop_sound in Hloop as (new & -> & Hnew).
  cbn in Hget. apply records_ids in Hnew. split.
  - intros Hnone.
    rewrite get_loop_unknown in Hget.
    + exists w1. unfold CinderBlockDeviceAPI.attach_volume.
      rewrite (bind_Raise _ _ _ _ _ Hget). now split.
    + rewrite Hnew. intros Hin.
      apply in_map_iff in Hin as (v & Hid & Hv).
      apply filter_In in Hv as [Hv Howned]. now apply (Hnone v).
  - intros (v & Hv & Howned & Hid).
    destruct (get_loop_known new blockdevice_id) as (volume & Hrun & _ & Hvol).
    + rewrite Hnew, <- Hid. apply in_map. apply filter_In. now split.
    + rewrite Hrun in Hget. now exists volume, w1.
Qed.

(** Only another cluster's volume has the id asked for. *)
Lemma attach_volume_unknown_volume_witness :
  exists w',
    CinderBlockDeviceAPI.attach_volume 10 Example.self "vol-2" "192.0.2.1"
      (Example.world
         (fun _ =>
            [Example.volume "vol-1" "available"
               (Example.tagged (UUID.to_string Example.cluster)
                  (UUID.to_string Example.dataset));
             Example.volume "vol-2" "available"
               (Example.tagged (UUID.to_string Example.other_cluster)
                  (UUID.to_string Example.dataset))])
         (fun _ => []))
    = Some (Raise (UnknownVolume "vol-2"), w') /\
    requests w' = [].
Proof.
  apply (proj1 (attach_volume_unknown_volume 10 Example.self "vol-2"
                  "192.0.2.1"
                  (Example.world
                     (fun _ =>
                        [Example.volume "vol-1" "available"
                           (Example.tagged (UUID.to_string Example.cluster)
                              (UUID.to_string Example.dataset));
                         Example.volume "vol-2" "available"
                           (Example.tagged
                              (UUID.to_string Example.other_cluster)
                              (UUID.to_string Example.dataset))])
                     (fun _ => []))
                  ltac:(repeat constructor; vm_compute; reflexivity))).
  intros v [<- | [<- | []]].
  - intros _. discriminate.
  - vm_compute. discriminate.
Defined.

(** C5 as stated fails: a cluster-owned volume with a dataset label
    that is not the text of a UUID is listed, no cluster-owned volume
    has the id [vol-2], and [attach_volume] raises [ValueError], not
    [UnknownVolume]. *)
Lemma attach_volume_unknown_volume_raises_ValueError :
  cluster_owned Example.cluster
    (Example.volume "vol-1" "available"
       (Example.tagged (UUID.to_string Example.cluster) "not-a-uuid")) = true /\
  Example.outcome
    (CinderBlockDeviceAPI.attach_volume 10 Example.self "vol-2" "192.0.2.1"
       (Example.world
          (fun _ =>
             [Example.volume "vol-1" "available"
                (Example.tagged (UUID.to_string Example.cluster)
                   "not-a-uuid")])
          (fun _ => [])))
  = Some (Raise (ValueError "badly formed hexadecimal UUID string")).
Proof. split; vm_compute; reflexivity. Qed.

(** ** A malformed dataset label *)

Lemma cluster_owned_label_ok (cluster_id : UUID.t) (v : Volume.t) :
  cluster_owned cluster_id v = true -> cluster_label_ok v = true.
Proof.
  unfold cluster_owned, cluster_label_ok.
  destruct (Volume.metadata v !! CLUSTER_ID_LABEL) as [label |]; [| reflexivity].
  destruct (UUID.parse label); [reflexivity | discriminate].
Qed.

(** The loop goes past listable volumes. *)
Lemma list_volumes_loop_app (cluster_id : UUID.t)
    (before rest : list Volume.t) (acc : list BlockDeviceVolume.t) :
  Forall (fun v => listable cluster_id v = true) before ->
  exists acc',
    list_volumes_loop cluster_id (before ++ rest) acc =
    list_volumes_loop cluster_id rest acc'.
Proof.
  intros Hbefore. revert acc.
  induction Hbefore as [| v before Hv _ IH]; intros acc.
  - now exists acc.
  - cbn [app list_volumes_loop].
    unfold listable in Hv. apply andb_prop in Hv as [Hc Hd].
    rewrite (is_cluster_volume_returns cluster_id v Hc). simpl.
    destruct (cluster_owned cluster_id v); [| apply IH].
    destruct (blockdevicevolume_returns v Hd) as [r ->]. simpl. apply IH.
Qed.

(** C7 (amended).  Mapping a provider volume whose dataset label is
    present but is not a text the [UUID] constructor accepts raises the
    [ValueError] of the constructor, whose message is made from the
    text alone and names neither the volume nor the label; no record is
    returned and the value is not coerced.
    [list_volumes] raises on every listing that contains such a volume
    of the cluster, and raises that [ValueError] when the volumes listed
    before it can be mapped. *)
Theorem malformed_dataset_label_raises
    (v : Volume.t) (label : string) :
  Volume.metadata v !! DATASET_ID_LABEL = Some label ->
  UUID.parse label = None ->
  _blockdevicevolume_from_cinder_volume v
    = Raise (ValueError (UUID_error_message label)) /\
  (forall (self : CinderBlockDeviceAPI.t) (w : World),
     cluster_owned (CinderBlockDeviceAPI.cluster_id self) v = true ->
     In v (listing w (listed w)) ->
     exists e w',
       CinderBlockDeviceAPI.list_volumes self w = Some (Raise e, w')) /\
  (forall (self : CinderBlockDeviceAPI.t) (w : World)
          (before after : list Volume.t),
     cluster_owned (CinderBlockDeviceAPI.cluster_id self) v = true ->
     listing w (listed w) = (before ++ v :: after)%list ->
     Forall (fun v' => listable (CinderBlockDeviceAPI.cluster_id self) v' = true)
       before ->
     exists w',
       CinderBlockDeviceAPI.list_volumes self w
         = Some (Raise (ValueError (UUID_error_message label)), w')).
Proof.
  intros Hlabel Hparse.
  assert (Hmap : _blockdevicevolume_from_cinder_volume v
                 = Raise (ValueError (UUID_error_message label))).
  { unfold _blockdevicevolume_from_cinder_volume, UUID_.
    now rewrite Hlabel, Hparse. }
  split; [exact Hmap |]. split.
  - intros self w Howned Hin.
    destruct (list_volumes_unfold self w) as (w' & Hrun & _).
    destruct (list_volumes_loop _ _ _) as [records | e] eqn:Hloop.
    + exfalso. apply list_volumes_loop_listable in Hloop.
      rewrite Forall_forall in Hloop. apply list_elem_of_In in Hin.
      specialize (Hloop v Hin). unfold listable in Hloop.
      rewrite Howned in Hloop. apply andb_prop in Hloop as [_ Hd].
      unfold dataset_label_ok in Hd. simpl in Hd.
      rewrite Hlabel, Hparse in Hd. discriminate Hd.
    + now exists e, w'.
  - intros self w before after Howned Hlisting Hbefore.
    destruct (list_volumes_unfold self w) as (w' & Hrun & _).
    exists w'. rewrite Hrun, Hlisting. f_equal. f_equal.
    destruct (list_volumes_loop_app _ before (v :: after) [] Hbefore)
      as [acc ->].
    cbn [list_volumes_loop].
    rewrite (is_cluster_volume_returns _ v (cluster_owned_label_ok _ _ Howned)).
    rewrite Howned. simpl. rewrite Hmap. reflexivity.
Qed.

(** A volume of the cluster with the dataset label [not-a-uuid], listed
    after a well-formed one. *)
Lemma malformed_dataset_label_raises_witness :
  exists w',
    CinderBlockDeviceAPI.list_volumes Example.self
      (Example.world
         (fun _ =>
            [Example.volume "vol-1" "available"
               (Example.tagged (UUID.to_string Example.cluster)
                  (UUID.to_string Example.dataset));
             Example.volume "vol-2" "available"
               (Example.tagged (UUID.to_string Example.cluster)
                  "not-a-uuid")])
         (fun _ => []))
    = Some (Raise (ValueError "badly formed hexadecimal UUID string"), w').
Proof.
  apply (proj2 (proj2 (malformed_dataset_label_raises
                         (Example.volume "vol-2" "available"
                            (Example.tagged (UUID.to_string Example.cluster)
                               "not-a-uuid"))
                         "not-a-uuid"
                         ltac:(vm_compute; reflexivity)
                         ltac:(vm_compute; reflexivity)))
           Example.self _
           [Example.volume "vol-1" "available"
              (Example.tagged (UUID.to_string Example.cluster)
                 (UUID.to_string Example.dataset))]
           []).
  - vm_compute. reflexivity.
  - reflexivity.
  - repeat constructor; vm_compute; reflexivity.
Defined.

(** C7 as stated fails: the exception does not identify the volume or
    the field.  Two different volumes with a malformed dataset label,
    and a volume with a malformed cluster label, raise one and the same
    exception. *)
Lemma malformed_label_error_is_anonymous :
  _blockdevicevolume_from_cinder_volume
    (Example.volume "vol-1" "available"
       (Example.tagged (UUID.to_string Example.cluster) "not-a-uuid"))
  = Raise (ValueError "badly formed hexadecimal UUID string") /\
  _blockdevicevolume_from_cinder_volume
    (Example.volume "vol-2" "available"
       (Example.tagged (UUID.to_string Example.cluster) "not-a-uuid"))
  = Raise (ValueError "badly formed hexadecimal UUID string") /\
  _is_cluster_volume Example.cluster
    (Example.volume "vol-1" "available"
       (Example.tagged "not-a-uuid" (UUID.to_string Example.dataset)))
  = Raise (ValueError "badly formed hexadecimal UUID string").
Proof. repeat split; vm_compute; reflexivity. Qed.

(** ** [attach_volume] and the device node *)

Lemma wait_loop_returns_expected (fuel : nat) :
  forall (expected_volume : Volume.t) (expected_status : string)
         (time_limit start_time : Q) (w w' : World) (v : Volume.t),
  wait_loop fuel expected_volume expected_status time_limit start_time w
    = Some (Return v, w') ->
  Volume.id v = Volume.id expected_volume /\
  Volume.status v = expected_status.
Proof.
  induction fuel as [| fuel IH]; intros ev es limit start w w' v;
    cbn [wait_loop]; [discriminate |].
  unfold mbind, M_bind, cinder_list, time_time, time_sleep, raise, mret, M_ret.
  cbn.
  destruct (find_listed _ _ _) as [found |] eqn:Hfound.
  - intros [= <- _]. now apply find_listed_Some in Hfound as (_ & ? & ?).
  - cbn. destruct (Qltb _ limit); [| discriminate]. apply IH.
Qed.

Lemma wait_for_volume_returns_expected (fuel : nat)
    (expected_volume : Volume.t) (expected_status : string) (time_limit : Q)
    (w w' : World) (v : Volume.t) :
  wait_for_volume fuel expected_volume expected_status time_limit w
    = Some (Return v, w') ->
  Volume.id v = Volume.id expected_volume /\
  Volume.status v = expected_status.
Proof.
  unfold wait_for_volume, mbind, M_bind, time_time.
  apply wait_loop_returns_expected.
Qed.

Lemma FilePath_exists_unfold (p : string) (w : World) :
  exists w',
    FilePath.exists_ p w =
      Some (Return (existsb (fun name => String.eqb ("/dev/" ++ name) p)
                      (dev w (dev_looked w))), w') /\
    requests w' = requests w.
Proof.
  unfold FilePath.exists_, look_at_dev, mbind, M_bind, mret, M_ret.
  eexists. split; reflexivity.
Qed.

Lemma existsb_dev_path (p : string) (names : list string) :
  existsb (fun name => String.eqb ("/dev/" ++ name) p) names = true <->
  In p (map (fun name => "/dev/" ++ name) names).
Proof.
  rewrite existsb_exists, in_map_iff. split.
  - intros (name & Hin & Heq). apply String.eqb_eq in Heq. eauto.
  - intros (name & Heq & Hin). exists name. split; [exact Hin |].
    now apply String.eqb_eq.
Qed.

(** C6 (amended).  Take an [attach_volume] call in which the volume is
    found, the instance id is read, a device path is chosen, the attach
    request is sent and the provider then lists the volume as in-use.
    If the chosen device path is not in [/dev], [attach_volume] fails
    with an [AssertionError], which carries no data, instead of
    returning a record; if it is there, [attach_volume] returns the
    record of the volume with [host] set. *)
Theorem attach_volume_checks_device_path
    (fuel : nat) (self : CinderBlockDeviceAPI.t)
    (blockdevice_id host : string) (w w1 w2 w3 w4 w5 : World)
    (unattached_volume : BlockDeviceVolume.t) (local_instance_uuid : UUID.t)
    (device_path : string) (nova_volume listed_volume : Volume.t) :
  CinderBlockDeviceAPI._get self blockdevice_id w
    = Some (Return unattached_volume, w1) ->
  _instance_uuid w1 = Some (Return local_instance_uuid, w2) ->
  _next_device w2 = Some (Return device_path, w3) ->
  send (nova_create_server_volume local_instance_uuid
          (BlockDeviceVolume.blockdevice_id unattached_volume) device_path) w3
    = Some (Return nova_volume, w4) ->
  wait_for_volume fuel nova_volume "in-use" default_time_limit w4
    = Some (Return listed_volume, w5) ->
  Volume.status listed_volume = "in-use" /\
  exists w',
    (~ In device_path
         (map (fun name => "/dev/" ++ name) (dev w5 (dev_looked w5))) ->
     CinderBlockDeviceAPI.attach_volume fuel self blockdevice_id host w
       = Some (Raise AssertionError, w')) /\
    (In device_path
       (map (fun name => "/dev/" ++ name) (dev w5 (dev_looked w5))) ->
     CinderBlockDeviceAPI.attach_volume fuel self blockdevice_id host w
       = Some (Return (BlockDeviceVolume.set_host unattached_volume host), w')).
Proof.
  intros Hget Huuid Hnext Hsend Hwait.
  split; [apply (wait_for_volume_returns_expected _ _ _ _ _ _ _ Hwait) |].
  destruct (FilePath_exists_unfold device_path w5) as (w' & Hexists & _).
  exists w'. unfold CinderBlockDeviceAPI.attach_volume.
  rewrite (bind_Return _ _ _ _ _ Hget), (bind_Return _ _ _ _ _ Huuid),
    (bind_Return _ _ _ _ _ Hnext), (bind_Return _ _ _ _ _ Hsend),
    (bind_Return _ _ _ _ _ Hwait), (bind_Return _ _ _ _ _ Hexists).
  split; intros Hin.
  - destruct (existsb _ _) eqn:Hb; [| reflexivity].
    exfalso. apply Hin. now apply existsb_dev_path.
  - apply existsb_dev_path in Hin. now rewrite Hin.
Qed.

(** The volume is listed as in-use after the attach request, and
    [/dev/xvdb] never appears. *)
Lemma attach_volume_checks_device_path_witness :
  exists w',
    CinderBlockDeviceAPI.attach_volume 10 Example.self "vol-1" "192.0.2.1"
      (Example.world
         (fun n =>
            [Example.volume "vol-1"
               (if (n <? 1)%nat then "available" else "in-use")
               (Example.tagged (UUID.to_string Example.cluster)
                  (UUID.to_string Example.dataset))])
         (fun _ => ["xvda"]))
    = Some (Raise AssertionError, w').
Proof.
  edestruct (attach_volume_checks_device_path 10 Example.self "vol-1"
               "192.0.2.1"
               (Example.world
                  (fun n =>
                     [Example.volume "vol-1"
                        (if (n <? 1)%nat then "available" else "in-use")
                        (Example.tagged (UUID.to_string Example.cluster)
                           (UUID.to_string Example.dataset))])
                  (fun _ => ["xvda"])))
    as (_ & w' & Hfails & _).
  - vm_compute. reflexivity.
  - vm_compute. reflexivity.
  - vm_compute. reflexivity.
  - vm_compute. reflexivity.
  - vm_compute. reflexivity.
  - exists w'. apply Hfails. vm_compute. intros [H | []]. discriminate H.
Defined.

(** C6 as stated fails: the error carries neither the blockdevice id
    nor the device path.  Attaching [vol-1] on a host where [/dev/xvdb]
    is missing and attaching [vol-2] on a host where [/dev/xvdc] is
    missing fail with one and the same exception. *)
Lemma attach_volume_assertion_carries_nothing :
  Example.outcome
    (CinderBlockDeviceAPI.attach_volume 10 Example.self "vol-1" "192.0.2.1"
       (Example.world
          (fun n =>
             [Example.volume "vol-1"
                (if (n <? 1)%nat then "available" else "in-use")
                (Example.tagged (UUID.to_string Example.cluster)
                   (UUID.to_string Example.dataset))])
          (fun _ => ["xvda"])))
  = Some (Raise AssertionError) /\
  Example.outcome
    (CinderBlockDeviceAPI.attach_volume 10 Example.self "vol-2" "192.0.2.1"
       (Example.world
          (fun n =>
             [Example.volume "vol-2"
                (if (n <? 1)%nat then "available" else "in-use")
                (Example.tagged (UUID.to_string Example.cluster)
                   (UUID.to_string Example.dataset))])
          (fun _ => ["xvda"; "xvdb"])))
  = Some (Raise AssertionError).
Proof. split; vm_compute; reflexivity. Qed.

(** When [/dev/xvdb] has appeared by the time the volume is in-use, the
    record is returned with its host. *)
Lemma attach_volume_returns_attached_volume :
  Example.outcome
    (CinderBlockDeviceAPI.attach_volume 10 Example.self "vol-1" "192.0.2.1"
       (Example.world
          (fun n =>
             [Example.volume "vol-1"
                (if (n <? 1)%nat then "available" else "in-use")
                (Example.tagged (UUID.to_string Example.cluster)
                   (UUID.to_string Example.dataset))])
          (fun n => if (n <? 1)%nat then ["xvda"] else ["xvda"; "xvdb"])))
  = Some (Return {| BlockDeviceVolume.blockdevice_id := "vol-1";
                    BlockDeviceVolume.size := 1000000000;
                    BlockDeviceVolume.host := Some "192.0.2.1";
                    BlockDeviceVolume.dataset_id := Example.dataset |}).
Proof. vm_compute. reflexivity. Qed.

(** ** More on polling *)

(** Every run of the loop that ends, whatever its outcome: it made [n]
    rounds that found nothing and slept, then one round that either
    found the volume or saw the limit reached.  Only the counters of
    listings, clock readings and sleeps move. *)
Lemma wait_loop_run (fuel : nat) :
  forall (expected_volume : Volume.t) (expected_status : string)
         (time_limit start_time : Q) (w w' : World) (r : Result Volume.t),
  wait_loop fuel expected_volume expected_status time_limit start_time w
    = Some (r, w') ->
  (requests w' = requests w /\ dev_looked w' = dev_looked w /\
   reply w' = reply w /\ listing w' = listing w /\ clock w' = clock w /\
   dev w' = dev w /\ xenstore_name w' = xenstore_name w) /\
  exists n : nat,
    (n < fuel)%nat /\
    slept w' = (slept w + n)%nat /\
    listed w' = (listed w + S n)%nat /\
    (forall j, (j < n)%nat ->
       find_listed (listing w (listed w + j)) (Volume.id expected_volume)
         expected_status = None /\
       Qltb (clock w (clock_read w + j) - start_time) time_limit = true) /\
    match r with
    | Return v =>
        clock_read w' = (clock_read w + n)%nat /\
        find_listed (listing w (listed w + n)) (Volume.id expected_volume)
          expected_status = Some v
    | Raise e =>
        clock_read w' = (clock_read w + S n)%nat /\
        find_listed (listing w (listed w + n)) (Volume.id expected_volume)
          expected_status = None /\
        Qltb (clock w (clock_read w + n) - start_time) time_limit = false /\
        e = Exception_timed_out expected_volume expected_status
              (clock w (clock_read w + n) - start_time) time_limit
    end.
Proof.
  induction fuel as [| fuel IH]; intros ev es limit start w w' r;
    cbn [wait_loop]; [discriminate |].
  unfold mbind, M_bind, cinder_list, time_time, time_sleep, raise, mret, M_ret.
  cbn.
  destruct (find_listed _ _ _) as [found |] eqn:Hfound.
  - intros [= <- <-]. cbn. split; [repeat split |].
    exists 0%nat. rewrite !Nat.add_0_r.
    repeat split; try lia; try assumption.
  - cbn. destruct (Qltb _ limit) eqn:Hlt.
    + intros Hrun. apply IH in Hrun as (Hframe & n & Hn & Hslept & Hlisted & Hbefore & Hlast).
      cbn in Hframe, Hslept, Hlisted, Hbefore, Hlast.
      split; [exact Hframe |].
      exists (S n). split; [lia |]. split; [lia |]. split; [lia |]. split.
      * intros [| j] Hj.
        -- rewrite !Nat.add_0_r. now split.
        -- rewrite !Nat.add_succ_r. apply Hbefore. lia.
      * rewrite !Nat.add_succ_r. destruct r as [v | e]; cbn in Hlast |- *.
        -- destruct Hlast as [Hcr Hf]. split; [lia | exact Hf].
        -- destruct Hlast as (Hcr & Hf & Hq & He). repeat split; try assumption. lia.
    + intros [= <- <-]. cbn. split; [repeat split |].
      exists 0%nat. rewrite !Nat.add_0_r.
      repeat split; try lia; try assumption.
Qed.

Lemma wait_loop_terminates (k : nat) :
  forall (fuel : nat) (expected_volume : Volume.t) (expected_status : string)
         (time_limit start_time : Q) (w : World),
  (k < fuel)%nat ->
  Qltb (clock w (clock_read w + k) - start_time) time_limit = false ->
  exists r w',
    wait_loop fuel expected_volume expected_status time_limit start_time w
      = Some (r, w').
Proof.
  induction k as [| k IH]; intros fuel ev es limit start w Hfuel Hreach;
    (destruct fuel as [| fuel]; [lia |]).
  - rewrite Nat.add_0_r in Hreach. cbn [wait_loop].
    unfold mbind, M_bind, cinder_list, time_time, raise, mret, M_ret. cbn.
    destruct (find_listed _ _ _); [eauto |]. cbn. rewrite Hreach. eauto.
  - destruct (find_listed (listing w (listed w)) (Volume.id ev) es)
      as [found |] eqn:Hfound.
    + cbn [wait_loop].
      unfold mbind, M_bind, cinder_list, mret, M_ret. cbn.
      rewrite Hfound. eauto.
    + destruct (Qltb (clock w (clock_read w) - start) limit) eqn:Hlt.
      * rewrite (wait_loop_round _ _ _ _ _ _ Hfound Hlt).
        apply IH; [lia |]. cbn. rewrite <- Nat.add_succ_r. exact Hreach.
      * cbn [wait_loop].
        unfold mbind, M_bind, cinder_list, time_time, raise. cbn.
        rewrite Hfound. cbn. rewrite Hlt. eauto.
Qed.

(** X1.  If the listing of round [k] is the first to show a volume with
    the target's id and the expected status, and the clock readings of
    the rounds before are below the limit, [wait_for_volume] returns
    that listed volume after exactly [k] sleeps, [k + 1] listings and
    [k + 1] clock readings, without sending a request.  With [k = 0] it
    returns at once, whatever the limit. *)
Theorem wait_for_volume_polls_until_listed
    (fuel : nat) (expected_volume : Volume.t) (expected_status : string)
    (time_limit : Q) (w : World) (k : nat) (listed_volume : Volume.t) :
  (k < fuel)%nat ->
  (forall j, (j < k)%nat ->
     (clock w (S (clock_read w) + j) - clock w (clock_read w)
      < time_limit)%Q) ->
  (forall j, (j < k)%nat ->
     find_listed (listing w (listed w + j)) (Volume.id expected_volume)
       expected_status = None) ->
  find_listed (listing w (listed w + k)) (Volume.id expected_volume)
    expected_status = Some listed_volume ->
  exists w',
    wait_for_volume fuel expected_volume expected_status time_limit w
      = Some (Return listed_volume, w') /\
    slept w' = (slept w + k)%nat /\
    listed w' = (listed w + S k)%nat /\
    clock_read w' = (clock_read w + S k)%nat /\
    requests w' = requests w.
Proof.
  intros Hfuel Hbelow Hnone Hfound.
  unfold wait_for_volume, mbind, M_bind, time_time.
  edestruct (wait_loop_returns expected_volume expected_status time_limit
               (clock w (clock_read w)) k fuel)
    as (w' & Hrun & Hreq & Hslept); cycle 4.
  - exists w'. split; [exact Hrun |].
    apply wait_loop_run in Hrun
      as ((_ & _) & n & _ & Hslept' & Hlisted & _ & Hlast).
    cbn in Hreq, Hslept, Hslept', Hlisted, Hlast.
    destruct Hlast as [Hcr _].
    assert (n = k) by lia. subst n. repeat split; try assumption; lia.
  - exact Hfuel.
  - intros j Hj. cbn. apply Qltb_true. now apply Hbelow.
  - intros j Hj. cbn. now apply Hnone.
  - cbn. exact Hfound.
Qed.

(** What any finished [wait_for_volume] has done. *)
Lemma wait_for_volume_run
    (fuel : nat) (expected_volume : Volume.t) (expected_status : string)
    (time_limit : Q) (w w' : World) (r : Result Volume.t) :
  wait_for_volume fuel expected_volume expected_status time_limit w
    = Some (r, w') ->
  (requests w' = requests w /\ dev_looked w' = dev_looked w /\
   reply w' = reply w /\ listing w' = listing w /\ clock w' = clock w /\
   dev w' = dev w /\ xenstore_name w' = xenstore_name w) /\
  exists n : nat,
    (n < fuel)%nat /\
    slept w' = (slept w + n)%nat /\
    listed w' = (listed w + S n)%nat /\
    match r with
    | Return v =>
        find_listed (listing w (listed w + n)) (Volume.id expected_volume)
          expected_status = Some v
    | Raise e =>
        Qltb (clock w (S (clock_read w) + n) - clock w (clock_read w))
          time_limit = false /\
        e = Exception_timed_out expected_volume expected_status
              (clock w (S (clock_read w) + n) - clock w (clock_read w))
              time_limit
    end.
Proof.
  unfold wait_for_volume, mbind, M_bind, time_time. intros Hrun.
  apply wait_loop_run in Hrun
    as (Hframe & n & Hn & Hslept & Hlisted & _ & Hlast).
  cbn in Hframe, Hslept, Hlisted, Hlast. split; [exact Hframe |].
  exists n. repeat split; try assumption.
  destruct r as [v | e]; [apply Hlast |].
  destruct Hlast as (_ & _ & Hq & He). now split.
Qed.

(** X2.  A volume returned by [wait_for_volume] was taken from one of
    the listings it polled, and has the target's id and the expected
    status. *)
Theorem wait_for_volume_returns_a_listed_volume
    (fuel : nat) (expected_volume : Volume.t) (expected_status : string)
    (time_limit : Q) (w w' : World) (v : Volume.t) :
  wait_for_volume fuel expected_volume expected_status time_limit w
    = Some (Return v, w') ->
  Volume.id v = Volume.id expected_volume /\
  Volume.status v = expected_status /\
  exists n, (listed w + n < listed w')%nat /\ In v (listing w (listed w + n)).
Proof.
  intros Hrun.
  apply wait_for_volume_run in Hrun as (_ & n & _ & _ & Hlisted & Hfound).
  apply find_listed_Some in Hfound as (Hin & Hid & Hstatus).
  repeat split; try assumption. exists n. split; [lia | exact Hin].
Qed.

(** X3.  [wait_for_volume] only observes: when it ends, with a volume
    or with an exception, it has sent no request and has not looked at
    [/dev]; and the timeout it raises carries the target, the expected
    status and the limit it was called with. *)
Theorem wait_for_volume_only_observes
    (fuel : nat) (expected_volume : Volume.t) (expected_status : string)
    (time_limit : Q) (w w' : World) (r : Result Volume.t) :
  wait_for_volume fuel expected_volume expected_status time_limit w
    = Some (r, w') ->
  requests w' = requests w /\ dev_looked w' = dev_looked w /\
  (forall volume status elapsed_time limit,
     r = Raise (Exception_timed_out volume status elapsed_time limit) ->
     volume = expected_volume /\ status = expected_status /\
     limit = time_limit).
Proof.
  intros Hrun.
  apply wait_for_volume_run in Hrun as ((Hreq & Hdev & _) & n & _ & _ & _ & Hlast).
  split; [exact Hreq |]. split; [exact Hdev |].
  intros volume status elapsed_time limit ->.
  destruct Hlast as [_ [= -> -> _ ->]]. auto.
Qed.

(** X4.  The loop ends as soon as the clock shows the limit reached: if
    the reading of round [k] is at or past the limit (and the fuel
    covers [k] rounds), [wait_for_volume] finishes, with a volume or
    with its timeout, after at most [k + 1] listings and [k] sleeps. *)
Theorem wait_for_volume_terminates
    (fuel : nat) (expected_volume : Volume.t) (expected_status : string)
    (time_limit : Q) (w : World) (k : nat) :
  (k < fuel)%nat ->
  (time_limit
   <= clock w (S (clock_read w) + k) - clock w (clock_read w))%Q ->
  exists r w',
    wait_for_volume fuel expected_volume expected_status time_limit w
      = Some (r, w') /\
    (listed w' <= listed w + S k)%nat /\
    (slept w' <= slept w + k)%nat.
Proof.
  intros Hfuel Hreach. apply Qltb_false in Hreach.
  unfold wait_for_volume, mbind, M_bind, time_time.
  destruct (wait_loop_terminates k fuel expected_volume expected_status
              time_limit (clock w (clock_read w))
              {| reply := reply w; listing := listing w; clock := clock w;
                 dev := dev w; xenstore_name := xenstore_name w;
                 requests := requests w; listed := listed w;
                 clock_read := S (clock_read w);
                 dev_looked := dev_looked w; slept := slept w |}
              Hfuel Hreach)
    as (r & w' & Hrun).
  exists r, w'. split; [exact Hrun |].
  apply wait_loop_run in Hrun as (_ & n & _ & Hslept & Hlisted & Hbefore & _).
  cbn in Hslept, Hlisted, Hbefore.
  assert (n <= k)%nat.
  { destruct (Nat.le_gt_cases n k) as [Hle | Hgt]; [exact Hle |].
    destruct (Hbefore k Hgt) as [_ Hlt]. cbn in Hreach. congruence. }
  lia.
Qed.

(** ** More on [create_volume] *)

(** Every finished [create_volume]: the create request is sent first;
    if the wait ends with its timeout nothing more is sent; otherwise
    the metadata is set again, on the volume that was listed, and the
    outcome is the record of the requested volume or the exception of
    mapping it. *)
Lemma create_volume_run (fuel : nat) (self : CinderBlockDeviceAPI.t)
    (dataset_id : UUID.t) (size : Z) (w w' : World)
    (r : Result BlockDeviceVolume.t)
    (metadata : gmap string string) (requested_volume : Volume.t) :
  metadata =
    <[CLUSTER_ID_LABEL := UUID.to_string (CinderBlockDeviceAPI.cluster_id self)]>
      (<[DATASET_ID_LABEL := UUID.to_string dataset_id]> ∅) ->
  requested_volume =
    reply w (cinder_create (Byte_to_GB size) metadata :: requests w) ->
  CinderBlockDeviceAPI.create_volume fuel self dataset_id size w
    = Some (r, w') ->
  (exists elapsed_time,
     r = Raise (Exception_timed_out requested_volume "available"
                  elapsed_time default_time_limit) /\
     (default_time_limit <= elapsed_time)%Q /\
     requests w' = cinder_create (Byte_to_GB size) metadata :: requests w) \/
  (exists created_volume,
     r = _blockdevicevolume_from_cinder_volume requested_volume /\
     requests w' =
       cinder_set_metadata created_volume metadata
       :: cinder_create (Byte_to_GB size) metadata :: requests w /\
     Volume.id created_volume = Volume.id requested_volume /\
     Volume.status created_volume = "available").
Proof.
  intros Hmeta ->. unfold CinderBlockDeviceAPI.create_volume.
  cbv zeta. rewrite <- Hmeta. clear Hmeta.
  generalize (Byte_to_GB size) as gb. intros gb.
  unfold mbind at 1, M_bind at 1. unfold send at 1. cbn [requests reply].
  unfold mbind at 1, M_bind at 1.
  match goal with
  | |- context [wait_for_volume ?f ?v ?s ?l ?w1] =>
      destruct (wait_for_volume f v s l w1) as [[[created | e] w2] |] eqn:Hwait
  end; [| | discriminate].
  - apply wait_for_volume_run in Hwait
      as ((Hreq & _) & n & _ & _ & _ & Hfound).
    apply find_listed_Some in Hfound as (_ & Hid & Hstatus).
    cbn [requests] in Hreq.
    unfold mbind, M_bind, send, lift. intros [= <- <-]. right.
    exists created. cbn [requests]. rewrite Hreq. repeat split; assumption.
  - apply wait_for_volume_run in Hwait
      as ((Hreq & _) & n & _ & _ & _ & Hlimit & ->).
    apply Qltb_false in Hlimit. cbn [requests] in Hreq.
    intros [= <- <-]. left. eexists. split; [reflexivity |].
    split; [exact Hlimit | exact Hreq].
Qed.


(** X6.  When [create_volume] fails with the timeout of
    [wait_for_volume], the exception carries the volume the provider
    answered to the create request, the status [available] and the
    limit of 60 seconds, and at least 60 seconds have elapsed; the
    create request has been sent and no [set_metadata]: the volume
    stays with the provider, its metadata not set again. *)
Theorem create_volume_failure
    (fuel : nat) (self : CinderBlockDeviceAPI.t) (dataset_id : UUID.t)
    (size : Z) (w w' : World)
    (metadata : gmap string string) (requested_volume : Volume.t)
    (volume : Volume.t) (status : string) (elapsed_time limit : Q) :
  metadata =
    <[CLUSTER_ID_LABEL := UUID.to_string (CinderBlockDeviceAPI.cluster_id self)]>
      (<[DATASET_ID_LABEL := UUID.to_string dataset_id]> ∅) ->
  requested_volume =
    reply w (cinder_create (Byte_to_GB size) metadata :: requests w) ->
  CinderBlockDeviceAPI.create_volume fuel self dataset_id size w
    = Some (Raise (Exception_timed_out volume status elapsed_time limit), w') ->
  volume = requested_volume /\ status = "available" /\
  limit = default_time_limit /\
  (default_time_limit <= elapsed_time)%Q /\
  requests w' = cinder_create (Byte_to_GB size) metadata :: requests w.
Proof.
  intros Hmeta Hreq Hrun.
  destruct (create_volume_run _ _ _ _ _ _ _ _ _ Hmeta Hreq Hrun)
    as [(elapsed & [= -> -> -> ->] & Hle & Hrequests) | (created & Hr & _)].
  - repeat split; assumption.
  - exfalso. symmetry in Hr.
    unfold _blockdevicevolume_from_cinder_volume in Hr.
    destruct (Volume.metadata _ !! DATASET_ID_LABEL); [| discriminate Hr].
    unfold UUID_ in Hr. destruct (UUID.parse _); discriminate Hr.
Qed.

(** ** The labels *)

Lemma requested_cluster_label (cluster_id dataset_id : UUID.t) :
  (<[CLUSTER_ID_LABEL := UUID.to_string cluster_id]>
     (<[DATASET_ID_LABEL := UUID.to_string dataset_id]> ∅) : gmap string string)
    !! CLUSTER_ID_LABEL = Some (UUID.to_string cluster_id).
Proof. apply lookup_insert_eq. Qed.

Lemma labels_round_trip_aux
    (cluster_id other_cluster_id dataset_id : UUID.t) (v : Volume.t) :
  UUID.valid cluster_id -> UUID.valid dataset_id ->
  Volume.metadata v =
    <[CLUSTER_ID_LABEL := UUID.to_string cluster_id]>
      (<[DATASET_ID_LABEL := UUID.to_string dataset_id]> ∅) ->
  _is_cluster_volume other_cluster_id v
    = Return (bool_decide (cluster_id = other_cluster_id)) /\
  _blockdevicevolume_from_cinder_volume v =
    Return {| BlockDeviceVolume.blockdevice_id := Volume.id v;
              BlockDeviceVolume.size :=
                Py.int_of_float (GB_to_Byte (Volume.size v));
              BlockDeviceVolume.host := None;
              BlockDeviceVolume.dataset_id := dataset_id |}.
Proof.
  intros Hc Hd Hmeta. split.
  - unfold _is_cluster_volume.
    rewrite Hmeta, requested_cluster_label, (UUID_of_to_string _ Hc). cbn.
    unfold UUID.eqb. destruct (Z.eqb_spec cluster_id other_cluster_id).
    + now rewrite bool_decide_eq_true_2.
    + now rewrite bool_decide_eq_false_2.
  - unfold _blockdevicevolume_from_cinder_volume.
    rewrite Hmeta, requested_dataset_label, (UUID_of_to_string _ Hd).
    reflexivity.
Qed.

(** X7.  The labels [create_volume] writes read back: on a volume
    carrying them, the ownership test of any cluster returns, without
    raising, whether that cluster is the one that wrote them, and the
    mapper returns a record with the volume's id, no host and the
    dataset id that was written. *)
Theorem labels_round_trip
    (cluster_id other_cluster_id dataset_id : UUID.t) (v : Volume.t) :
  UUID.valid cluster_id -> UUID.valid dataset_id ->
  Volume.metadata v =
    <[CLUSTER_ID_LABEL := UUID.to_string cluster_id]>
      (<[DATASET_ID_LABEL := UUID.to_string dataset_id]> ∅) ->
  _is_cluster_volume other_cluster_id v
    = Return (bool_decide (cluster_id = other_cluster_id)) /\
  _blockdevicevolume_from_cinder_volume v =
    Return {| BlockDeviceVolume.blockdevice_id := Volume.id v;
              BlockDeviceVolume.size :=
                Py.int_of_float (GB_to_Byte (Volume.size v));
              BlockDeviceVolume.host := None;
              BlockDeviceVolume.dataset_id := dataset_id |}.
Proof. apply labels_round_trip_aux. Qed.

(** ** When [list_volumes] fails *)

Lemma list_volumes_loop_raises (cluster_id : UUID.t) (vols : list Volume.t) :
  forall (acc : list BlockDeviceVolume.t) (e : Exc),
  list_volumes_loop cluster_id vols acc = Raise e ->
  e = KeyError DATASET_ID_LABEL \/ exists message, e = ValueError message.
Proof.
  induction vols as [| v vols IH]; intros acc e; cbn [list_volumes_loop];
    [discriminate |].
  unfold _is_cluster_volume, _blockdevicevolume_from_cinder_volume, UUID_.
  destruct (Volume.metadata v !! CLUSTER_ID_LABEL) as [label |]; [| apply IH].
  destruct (UUID.parse label) as [actual |]; simpl;
    [| intros [= <-]; right; eauto].
  destruct (UUID.eqb actual cluster_id); [| apply IH].
  destruct (Volume.metadata v !! DATASET_ID_LABEL) as [dlabel |];
    [| intros [= <-]; now left].
  destruct (UUID.parse dlabel); simpl; [apply IH |].
  intros [= <-]. right. eauto.
Qed.

(** X8.  [list_volumes] is all or nothing.  When it returns records,
    it has sent no request, and every listed volume has a cluster label
    that is absent or that the [UUID] constructor accepts and, if it is
    of this cluster, a dataset label that the constructor accepts.  Its
    loop returns records on every such listing, and on any other one it
    raises, for the whole listing, a [KeyError] for the dataset label or
    the [ValueError] of the constructor. *)
Theorem list_volumes_all_or_nothing
    (self : CinderBlockDeviceAPI.t) (w w' : World)
    (records : list BlockDeviceVolume.t) :
  CinderBlockDeviceAPI.list_volumes self w = Some (Return records, w') ->
  requests w' = requests w /\
  Forall (fun v => listable (CinderBlockDeviceAPI.cluster_id self) v = true)
    (listing w (listed w)) /\
  (forall vols : list Volume.t,
     match list_volumes_loop (CinderBlockDeviceAPI.cluster_id self) vols [] with
     | Return _ =>
         Forall (fun v =>
                   listable (CinderBlockDeviceAPI.cluster_id self) v = true)
           vols
     | Raise e =>
         ~ Forall (fun v =>
                     listable (CinderBlockDeviceAPI.cluster_id self) v = true)
             vols /\
         (e = KeyError DATASET_ID_LABEL \/ exists message, e = ValueError message)
     end).
Proof.
  intros Hrun.
  destruct (list_volumes_unfold self w) as (w0 & Hrun0 & Hreq & _).
  rewrite Hrun0 in Hrun. injection Hrun as Hloop <-.
  split; [exact Hreq |]. split.
  - now apply list_volumes_loop_listable in Hloop.
  - intros vols.
    destruct (list_volumes_loop _ vols []) as [records' | e] eqn:Hvols.
    + now apply list_volumes_loop_listable in Hvols.
    + split; [| now apply list_volumes_loop_raises in Hvols].
      intros Hall.
      destruct (list_volumes_loop_returns _ _ [] Hall) as [records' Hret].
      congruence.
Qed.

(** X9.  Mapping a volume without the dataset label raises [KeyError]
    for that label, and so does [list_volumes] when such a volume of
    the cluster is listed after volumes it can map. *)
Theorem missing_dataset_label_raises
    (v : Volume.t) :
  Volume.metadata v !! DATASET_ID_LABEL = None ->
  _blockdevicevolume_from_cinder_volume v = Raise (KeyError DATASET_ID_LABEL) /\
  (forall (self : CinderBlockDeviceAPI.t) (w : World)
          (before after : list Volume.t),
     cluster_owned (CinderBlockDeviceAPI.cluster_id self) v = true ->
     listing w (listed w) = (before ++ v :: after)%list ->
     Forall (fun v' => listable (CinderBlockDeviceAPI.cluster_id self) v' = true)
       before ->
     exists w',
       CinderBlockDeviceAPI.list_volumes self w
         = Some (Raise (KeyError DATASET_ID_LABEL), w')).
Proof.
  intros Hlabel.
  assert (Hmap : _blockdevicevolume_from_cinder_volume v
                 = Raise (KeyError DATASET_ID_LABEL)).
  { unfold _blockdevicevolume_from_cinder_volume. now rewrite Hlabel. }
  split; [exact Hmap |].
  intros self w before after Howned Hlisting Hbefore.
  destruct (list_volumes_unfold self w) as (w' & Hrun & _).
  exists w'. rewrite Hrun, Hlisting. f_equal. f_equal.
  destruct (list_volumes_loop_app _ before (v :: after) [] Hbefore)
    as [acc ->].
  cbn [list_volumes_loop].
  rewrite (is_cluster_volume_returns _ v (cluster_owned_label_ok _ _ Howned)).
  rewrite Howned. simpl. rewrite Hmap. reflexivity.
Qed.

(** ** Creating, then listing *)

Lemma Forall2_In_l {A B} (P : A -> B -> Prop) (l1 : list A) (l2 : list B)
    (x : A) :
  Forall2 P l1 l2 -> In x l1 -> exists y, In y l2 /\ P x y.
Proof.
  induction 1 as [| a b l1 l2 Hab _ IH]; [contradiction |].
  intros [<- | Hin].
  - exists b. split; [now left | exact Hab].
  - destruct (IH Hin) as (y & Hy & Hxy). exists y. split; [now right | exact Hxy].
Qed.

(** X10.  After a successful [create_volume], for 128-bit cluster and
    dataset ids, whose provider answered with the requested labels:
    when the provider then lists a volume with the new volume's id,
    capacity and labels, and [list_volumes] can map every volume of
    that listing (its cluster label is absent or the text of a UUID,
    and so is the dataset label of a volume of the cluster),
    [list_volumes] of the same cluster returns the very record
    [create_volume] returned among its records; and, the listed ids
    being distinct, [list_volumes] of any other cluster returns no
    record with that id. *)
Theorem created_volume_is_listed
    (fuel : nat) (self other : CinderBlockDeviceAPI.t) (dataset_id : UUID.t)
    (size : Z) (w w' : World) (record : BlockDeviceVolume.t)
    (metadata : gmap string string) (requested_volume v : Volume.t) :
  UUID.valid (CinderBlockDeviceAPI.cluster_id self) ->
  UUID.valid dataset_id ->
  metadata =
    <[CLUSTER_ID_LABEL := UUID.to_string (CinderBlockDeviceAPI.cluster_id self)]>
      (<[DATASET_ID_LABEL := UUID.to_string dataset_id]> ∅) ->
  requested_volume =
    reply w (cinder_create (Byte_to_GB size) metadata :: requests w) ->
  Volume.metadata requested_volume = metadata ->
  CinderBlockDeviceAPI.create_volume fuel self dataset_id size w
    = Some (Return record, w') ->
  In v (listing w' (listed w')) ->
  Volume.id v = Volume.id requested_volume ->
  Volume.size v = Volume.size requested_volume ->
  Volume.metadata v = metadata ->
  (Forall (fun v' => listable (CinderBlockDeviceAPI.cluster_id self) v' = true)
     (listing w' (listed w')) ->
   exists records w'',
     CinderBlockDeviceAPI.list_volumes self w' = Some (Return records, w'') /\
     In record records) /\
  (CinderBlockDeviceAPI.cluster_id other <> CinderBlockDeviceAPI.cluster_id self ->
   NoDup (map Volume.id (listing w' (listed w'))) ->
   forall records w'',
     CinderBlockDeviceAPI.list_volumes other w' = Some (Return records, w'') ->
     ~ In (BlockDeviceVolume.blockdevice_id record)
          (map BlockDeviceVolume.blockdevice_id records)).
Proof.
  intros Hc Hd Hmeta Hreq Hreqmeta Hrun Hin Hid Hsize Hvmeta.
  rewrite Hmeta in Hreqmeta, Hvmeta.
  assert (Hrecord : _blockdevicevolume_from_cinder_volume v = Return record).
  { apply create_volume_inv in Hrun. rewrite <- Hmeta, <- Hreq in Hrun.
    rewrite <- Hrun.
    rewrite (proj2 (labels_round_trip_aux _ (CinderBlockDeviceAPI.cluster_id self)
                      _ v Hc Hd Hvmeta)).
    rewrite (proj2 (labels_round_trip_aux _ (CinderBlockDeviceAPI.cluster_id self)
                      _ requested_volume Hc Hd Hreqmeta)).
    now rewrite Hid, Hsize. }
  split.
  - intros Hall.
    destruct (list_volumes_unfold self w') as (w'' & Hlist & _).
    destruct (list_volumes_loop_returns _ _ [] Hall) as [records Hloop].
    exists records, w''. rewrite Hlist, Hloop. split; [reflexivity |].
    apply list_volumes_loop_sound in Hloop as (new & -> & Hnew). cbn.
    destruct (Forall2_In_l _ _ _ v Hnew) as (r & Hr & Hmap).
    + apply filter_In. split; [exact Hin |].
      symmetry. apply (is_cluster_volume_sound _ v true).
      rewrite (proj1 (labels_round_trip_aux _ _ _ v Hc Hd Hvmeta)).
      now rewrite bool_decide_eq_true_2.
    + rewrite Hrecord in Hmap. now injection Hmap as <-.
  - intros Hother Hnd records w'' Hlist.
    destruct (list_volumes_unfold other w') as (w3 & Hlist' & _).
    rewrite Hlist' in Hlist. injection Hlist as Hloop _.
    apply list_volumes_loop_sound in Hloop as (new & -> & Hnew). cbn.
    rewrite (records_ids _ _ Hnew).
    rewrite (blockdevicevolume_id v record Hrecord).
    intros Hin'. apply in_map_iff in Hin' as (v' & Hid' & Hv').
    apply filter_In in Hv' as [Hv' Howned].
    assert (v' = v) as -> by (now apply (NoDup_map_In_eq Volume.id _ v' v Hnd)).
    pose proof (is_cluster_volume_sound (CinderBlockDeviceAPI.cluster_id other)
                  v _ (proj1 (labels_round_trip_aux _ _ _ v Hc Hd Hvmeta)))
      as Hb.
    rewrite Howned in Hb. rewrite bool_decide_eq_false_2 in Hb by congruence.
    discriminate Hb.
Qed.

(** The volume is listed as available from the third listing on. *)
Lemma wait_for_volume_polls_until_listed_witness :
  exists w',
    wait_for_volume 10 (Example.volume "vol-1" "creating" ∅) "available"
      default_time_limit
      (Example.world
         (fun n => if (n <? 2)%nat then []
                   else [Example.volume "vol-1" "available" ∅])
         (fun _ => []))
    = Some (Return (Example.volume "vol-1" "available" ∅), w') /\
    slept w' = 2%nat /\ listed w' = 3%nat.
Proof.
  destruct (wait_for_volume_polls_until_listed 10
              (Example.volume "vol-1" "creating" ∅) "available"
              default_time_limit
              (Example.world
                 (fun n => if (n <? 2)%nat then []
                           else [Example.volume "vol-1" "available" ∅])
                 (fun _ => []))
              2 (Example.volume "vol-1" "available" ∅))
    as (w' & Hrun & Hslept & Hlisted & _).
  - lia.
  - intros j Hj. destruct j as [| [| j]]; [reflexivity | reflexivity | lia].
  - intros j Hj. destruct j as [| [| j]]; [reflexivity | reflexivity | lia].
  - reflexivity.
  - exists w'. split; [exact Hrun |]. split; [exact Hslept | exact Hlisted].
Defined.

Lemma wait_for_volume_returns_a_listed_volume_witness :
  Volume.id (Example.volume "vol-1" "available" ∅) = "vol-1" /\
  Volume.status (Example.volume "vol-1" "available" ∅) = "available".
Proof.
  edestruct (wait_for_volume_returns_a_listed_volume 10
               (Example.volume "vol-1" "creating" ∅) "available"
               default_time_limit
               (Example.world
                  (fun n => if (n <? 2)%nat then []
                            else [Example.volume "vol-1" "available" ∅])
                  (fun _ => [])))
    as (Hid & Hstatus & _).
  - vm_compute. reflexivity.
  - split; [exact Hid | exact Hstatus].
Defined.

(** Nothing is ever listed: the wait times out, having sent nothing. *)
Lemma wait_for_volume_only_observes_witness :
  exists w',
    wait_for_volume 5 (Example.volume "vol-1" "creating" ∅) "available"
      (3 # 10) (Example.world (fun _ => []) (fun _ => []))
    = Some (Raise (Exception_timed_out (Example.volume "vol-1" "creating" ∅)
                     "available"
                     (inject_Z 3 * (1 # 10) - inject_Z 0 * (1 # 10))
                     (3 # 10)),
            w') /\
    requests w' = [].
Proof.
  edestruct (wait_for_volume_only_observes 5
               (Example.volume "vol-1" "creating" ∅) "available" (3 # 10)
               (Example.world (fun _ => []) (fun _ => [])))
    as (Hreq & _ & _).
  - vm_compute. reflexivity.
  - eexists. split; [| exact Hreq]. vm_compute. reflexivity.
Defined.

Lemma wait_for_volume_terminates_witness :
  exists r w',
    wait_for_volume 5 (Example.volume "vol-1" "creating" ∅) "available"
      (3 # 10) (Example.world (fun _ => []) (fun _ => []))
    = Some (r, w') /\
    (listed w' <= 3)%nat.
Proof.
  destruct (wait_for_volume_terminates 5
              (Example.volume "vol-1" "creating" ∅) "available" (3 # 10)
              (Example.world (fun _ => []) (fun _ => [])) 2)
    as (r & w' & Hrun & Hlisted & _).
  - lia.
  - discriminate.
  - exists r, w'. split; [exact Hrun | exact Hlisted].
Defined.


(** Nothing is ever listed and a minute passes between two readings
    of the clock: the wait gives up, and only the create request has
    been sent. *)
Lemma create_volume_failure_witness :
  exists elapsed_time w',
    CinderBlockDeviceAPI.create_volume 5 Example.self Example.dataset
      1500000000
      (Example.world_with_clock (inject_Z 60) (fun _ => []) (fun _ => []))
    = Some (Raise
              (Exception_timed_out
                 (reply (Example.world (fun _ => []) (fun _ => []))
                    [cinder_create (Byte_to_GB 1500000000)
                       (Example.tagged (UUID.to_string Example.cluster)
                          (UUID.to_string Example.dataset))])
                 "available" elapsed_time default_time_limit), w') /\
    (default_time_limit <= elapsed_time)%Q /\
    requests w' =
      [cinder_create (Byte_to_GB 1500000000)
         (Example.tagged (UUID.to_string Example.cluster)
            (UUID.to_string Example.dataset))].
Proof.
  assert (Hout :
    Example.outcome
      (CinderBlockDeviceAPI.create_volume 5 Example.self Example.dataset
         1500000000
         (Example.world_with_clock (inject_Z 60) (fun _ => []) (fun _ => [])))
    = Some (Raise
              (Exception_timed_out
                 (reply (Example.world (fun _ => []) (fun _ => []))
                    [cinder_create (Byte_to_GB 1500000000)
                       (Example.tagged (UUID.to_string Example.cluster)
                          (UUID.to_string Example.dataset))])
                 "available"
                 (inject_Z 1 * inject_Z 60 - inject_Z 0 * inject_Z 60)
                 default_time_limit)))
    by (vm_compute; reflexivity).
  destruct (outcome_Raise_inv _ _ Hout) as [w' Hrun].
  destruct (create_volume_failure _ _ _ _ _ _ _ _ _ _ _ _ eq_refl eq_refl Hrun)
    as (_ & _ & _ & Hle & Hreq).
  eexists; exists w'. split; [exact Hrun |]. split; [exact Hle | exact Hreq].
Defined.

Lemma labels_round_trip_witness :
  _is_cluster_volume Example.other_cluster
    (Example.volume "vol-1" "available"
       (Example.tagged (UUID.to_string Example.cluster)
          (UUID.to_string Example.dataset)))
  = Return (bool_decide (Example.cluster = Example.other_cluster)) /\
  bool_decide (Example.cluster = Example.other_cluster) = false.
Proof.
  split; [| reflexivity].
  apply (labels_round_trip Example.cluster Example.other_cluster
           Example.dataset).
  - unfold UUID.valid, Example.cluster. lia.
  - unfold UUID.valid, Example.dataset. lia.
  - reflexivity.
Defined.

(** Two volumes, of this cluster and of another one: both are listed
    with labels written in the ways the constructor accepts. *)
Lemma list_volumes_all_or_nothing_witness :
  exists records w',
    CinderBlockDeviceAPI.list_volumes Example.self
      (Example.world
         (fun _ =>
            [Example.volume "vol-1" "available"
               (Example.tagged
                  ("{" ++ UUID.to_string Example.cluster ++ "}")
                  ("urn:uuid:" ++ UUID.to_string Example.dataset));
             Example.volume "vol-2" "available"
               (Example.tagged (UUID.to_string Example.other_cluster)
                  "not-a-uuid")])
         (fun _ => []))
    = Some (Return records, w') /\
    map BlockDeviceVolume.blockdevice_id records = ["vol-1"] /\
    requests w' = [].
Proof.
  assert (Hout :
    Example.outcome
      (CinderBlockDeviceAPI.list_volumes Example.self
         (Example.world
            (fun _ =>
               [Example.volume "vol-1" "available"
                  (Example.tagged
                     ("{" ++ UUID.to_string Example.cluster ++ "}")
                     ("urn:uuid:" ++ UUID.to_string Example.dataset));
                Example.volume "vol-2" "available"
                  (Example.tagged (UUID.to_string Example.other_cluster)
                     "not-a-uuid")])
            (fun _ => [])))
    = Some (Return [{| BlockDeviceVolume.blockdevice_id := "vol-1";
                       BlockDeviceVolume.size := 1000000000;
                       BlockDeviceVolume.host := None;
                       BlockDeviceVolume.dataset_id := Example.dataset |}]))
    by (vm_compute; reflexivity).
  destruct (outcome_Return_inv _ _ Hout) as [w' Hrun].
  destruct (list_volumes_all_or_nothing _ _ _ _ Hrun) as (Hreq & _).
  eexists; exists w'. split; [exact Hrun |]. split; [reflexivity | exact Hreq].
Defined.

(** A volume of the cluster without the dataset label, listed after a
    well-formed one. *)
Lemma missing_dataset_label_raises_witness :
  exists w',
    CinderBlockDeviceAPI.list_volumes Example.self
      (Example.world
         (fun _ =>
            [Example.volume "vol-1" "available"
               (Example.tagged (UUID.to_string Example.cluster)
                  (UUID.to_string Example.dataset));
             Example.volume "vol-2" "available"
               (<[CLUSTER_ID_LABEL := UUID.to_string Example.cluster]> ∅)])
         (fun _ => []))
    = Some (Raise (KeyError DATASET_ID_LABEL), w').
Proof.
  assert (Hnone :
    Volume.metadata
      (Example.volume "vol-2" "available"
         (<[CLUSTER_ID_LABEL := UUID.to_string Example.cluster]> ∅))
      !! DATASET_ID_LABEL = None) by (vm_compute; reflexivity).
  apply (proj2 (missing_dataset_label_raises _ Hnone)
           Example.self _
           [Example.volume "vol-1" "available"
              (Example.tagged (UUID.to_string Example.cluster)
                 (UUID.to_string Example.dataset))]
           []).
  - vm_compute. reflexivity.
  - reflexivity.
  - repeat constructor; vm_compute; reflexivity.
Defined.

(** The new volume is listed with its labels from the third listing
    on: listing after creating returns the record [create_volume]
    returned. *)
Lemma created_volume_is_listed_witness :
  exists records w'',
    CinderBlockDeviceAPI.list_volumes Example.self
      (Example.world_after
         (CinderBlockDeviceAPI.create_volume 10 Example.self Example.dataset
            1500000000 (Example.world Example.new_volume_listing (fun _ => []))))
    = Some (Return records, w'') /\
    In {| BlockDeviceVolume.blockdevice_id := "vol-new";
          BlockDeviceVolume.size := 1500000000;
          BlockDeviceVolume.host := None;
          BlockDeviceVolume.dataset_id := Example.dataset |} records.
Proof.
  assert (Hrun :
    CinderBlockDeviceAPI.create_volume 10 Example.self Example.dataset
      1500000000 (Example.world Example.new_volume_listing (fun _ => []))
    = Some (Return {| BlockDeviceVolume.blockdevice_id := "vol-new";
                      BlockDeviceVolume.size := 1500000000;
                      BlockDeviceVolume.host := None;
                      BlockDeviceVolume.dataset_id := Example.dataset |},
            Example.world_after
              (CinderBlockDeviceAPI.create_volume 10 Example.self
                 Example.dataset 1500000000
                 (Example.world Example.new_volume_listing (fun _ => [])))))
    by (vm_compute; reflexivity).
  assert (Hc : UUID.valid (CinderBlockDeviceAPI.cluster_id Example.self))
    by (unfold UUID.valid, Example.self, Example.cluster;
        cbn [CinderBlockDeviceAPI.cluster_id]; lia).
  assert (Hd : UUID.valid Example.dataset)
    by (unfold UUID.valid, Example.dataset; lia).
  assert (Hmeta :
    Volume.metadata
      (reply (Example.world Example.new_volume_listing (fun _ => []))
         (cinder_create (Byte_to_GB 1500000000)
            (Example.tagged (UUID.to_string Example.cluster)
               (UUID.to_string Example.dataset))
          :: requests (Example.world Example.new_volume_listing (fun _ => []))))
    = Example.tagged (UUID.to_string Example.cluster)
        (UUID.to_string Example.dataset)) by reflexivity.
  assert (Hin :
    In (Example.new_volume 1500000000)
       (listing
          (Example.world_after
             (CinderBlockDeviceAPI.create_volume 10 Example.self
                Example.dataset 1500000000
                (Example.world Example.new_volume_listing (fun _ => []))))
          (listed
             (Example.world_after
                (CinderBlockDeviceAPI.create_volume 10 Example.self
                   Example.dataset 1500000000
                   (Example.world Example.new_volume_listing (fun _ => [])))))))
    by (vm_compute; left; reflexivity).
  destruct (created_volume_is_listed 10 Example.self Example.self
              Example.dataset 1500000000 _ _ _ _ _
              (Example.new_volume 1500000000)
              Hc Hd eq_refl eq_refl Hmeta Hrun Hin eq_refl eq_refl eq_refl)
    as [Hsame _].
  apply Hsame. repeat constructor; vm_compute; reflexivity.
Defined.

(** ** More on [attach_volume] *)

Lemma bind_None {A B} (m : M A) (f : A -> M B) (w : World) :
  m w = None -> (m ≫= f) w = None.
Proof. unfold mbind, M_bind. now intros ->. Qed.

Lemma get_loop_returns_id (volumes : list BlockDeviceVolume.t)
    (blockdevice_id : string) (volume : BlockDeviceVolume.t) :
  _get_loop volumes blockdevice_id = Return volume ->
  In volume volumes /\
  BlockDeviceVolume.blockdevice_id volume = blockdevice_id.
Proof.
  induction volumes as [| v volumes IH]; [discriminate |]. simpl.
  destruct (String.eqb_spec (BlockDeviceVolume.blockdevice_id v)
              blockdevice_id) as [Heq | _].
  - intros [= <-]. split; [now left | exact Heq].
  - intros Hrun. destruct (IH Hrun). split; [now right | assumption].
Qed.

(** Every finished [attach_volume]: either it failed before sending
    anything, or it sent the one attach request and then returned the
    looked-up record with the host, failed its assertion, or timed out. *)
Lemma attach_volume_run (fuel : nat) (self : CinderBlockDeviceAPI.t)
    (blockdevice_id host : string) (w w' : World)
    (r : Result BlockDeviceVolume.t) :
  CinderBlockDeviceAPI.attach_volume fuel self blockdevice_id host w
    = Some (r, w') ->
  (exists e, r = Raise e /\ requests w' = requests w) \/
  (exists (records : list BlockDeviceVolume.t)
          (unattached_volume : BlockDeviceVolume.t)
          (local_instance_uuid : UUID.t) (letter : ascii),
     list_volumes_loop (CinderBlockDeviceAPI.cluster_id self)
       (listing w (listed w)) [] = Return records /\
     In unattached_volume records /\
     BlockDeviceVolume.blockdevice_id unattached_volume = blockdevice_id /\
     requests w' =
       nova_create_server_volume local_instance_uuid blockdevice_id
         ("/dev/xvd" ++ String letter "")
       :: requests w /\
     (r = Return (BlockDeviceVolume.set_host unattached_volume host) \/
      r = Raise AssertionError \/
      exists nova_volume elapsed_time,
        r = Raise (Exception_timed_out nova_volume "in-use" elapsed_time
                     default_time_limit))).
Proof.
  unfold CinderBlockDeviceAPI.attach_volume.
  destruct (get_unfold self blockdevice_id w) as (w1 & Hget & Hreq1 & _).
  destruct (list_volumes_loop _ _ _) as [records | e] eqn:Hloop; cbn in Hget.
  2:{ rewrite (bind_Raise _ _ _ _ _ Hget). intros [= <- <-]. left. eauto. }
  destruct (_get_loop records blockdevice_id) as [unattached | e] eqn:Hfind.
  2:{ rewrite (bind_Raise _ _ _ _ _ Hget). intros [= <- <-]. left. eauto. }
  apply get_loop_returns_id in Hfind as [Hin Hid].
  rewrite (bind_Return _ _ _ _ _ Hget).
  pose proof (instance_uuid_unfold w1) as Huuid.
  destruct (UUID_of_str _) as [uuid | e] in Huuid.
  2:{ rewrite (bind_Raise _ _ _ _ _ Huuid). intros [= <- <-]. left. eauto. }
  rewrite (bind_Return _ _ _ _ _ Huuid).
  destruct (next_device_unfold w1) as (w2 & Hnext & Hreq2 & _).
  destruct (String.get _ Py.ascii_lowercase) as [letter |] in Hnext.
  2:{ rewrite (bind_Raise _ _ _ _ _ Hnext). intros [= <- <-]. left.
      eexists. split; [reflexivity | congruence]. }
  rewrite (bind_Return _ _ _ _ _ Hnext).
  unfold mbind at 1, M_bind at 1, send at 1. rewrite Hid.
  match goal with
  | |- (wait_for_volume ?f ?v ?s ?l ≫= _) ?w3 = _ -> _ =>
      destruct (wait_for_volume f v s l w3) as [[[listed_volume | e] w4] |]
        eqn:Hwait
  end.
  - rewrite (bind_Return _ _ _ _ _ Hwait).
    apply wait_for_volume_run in Hwait as ((Hreq4 & _) & _).
    cbn [requests] in Hreq4.
    destruct (FilePath_exists_unfold ("/dev/xvd" ++ String letter "") w4)
      as (w5 & Hexists & Hreq5).
    rewrite (bind_Return _ _ _ _ _ Hexists).
    intros Hrun. right. exists records, unattached, uuid, letter.
    repeat split; try assumption.
    + destruct (existsb _ _); injection Hrun as _ <-; congruence.
    + destruct (existsb _ _); injection Hrun as <- _; auto.
  - rewrite (bind_Raise _ _ _ _ _ Hwait).
    apply wait_for_volume_run in Hwait as ((Hreq4 & _) & n & _ & _ & _ & _ & ->).
    cbn [requests] in Hreq4.
    intros [= <- <-]. right. exists records, unattached, uuid, letter.
    repeat split; try assumption; [congruence |]. right. right. eauto.
  - rewrite (bind_None _ _ _ Hwait). discriminate.
Qed.

(** X11.  [attach_volume] sends at most one request, and never one to
    the volume manager: however it ends, the requests sent are those
    sent before, or those and one [create_server_volume] for the
    blockdevice id it was given, with a device path [/dev/xvd] plus one
    letter.  If it has sent none, it has raised. *)
Theorem attach_volume_sends_one_request
    (fuel : nat) (self : CinderBlockDeviceAPI.t)
    (blockdevice_id host : string) (w w' : World)
    (r : Result BlockDeviceVolume.t) :
  CinderBlockDeviceAPI.attach_volume fuel self blockdevice_id host w
    = Some (r, w') ->
  (requests w' = requests w /\ exists e, r = Raise e) \/
  (exists (local_instance_uuid : UUID.t) (letter : ascii),
     requests w' =
       nova_create_server_volume local_instance_uuid blockdevice_id
         ("/dev/xvd" ++ String letter "")
       :: requests w).
Proof.
  intros Hrun. apply attach_volume_run in Hrun
    as [(e & -> & Hreq) | (_ & _ & uuid & letter & _ & _ & _ & Hreq & _)].
  - left. eauto.
  - right. eauto.
Qed.

(** X12.  The record [attach_volume] returns is one [list_volumes]
    yields on the listing made before attaching, with the host filled
    in: its blockdevice id is the one asked for, its host is the [host]
    argument, and its size and dataset id are those of that record.  By
    then exactly one request has been sent. *)
Theorem attach_volume_returns_listed_record
    (fuel : nat) (self : CinderBlockDeviceAPI.t)
    (blockdevice_id host : string) (w w' : World)
    (attached_volume : BlockDeviceVolume.t) :
  CinderBlockDeviceAPI.attach_volume fuel self blockdevice_id host w
    = Some (Return attached_volume, w') ->
  BlockDeviceVolume.blockdevice_id attached_volume = blockdevice_id /\
  BlockDeviceVolume.host attached_volume = Some host /\
  (exists records unattached_volume,
     list_volumes_loop (CinderBlockDeviceAPI.cluster_id self)
       (listing w (listed w)) [] = Return records /\
     In unattached_volume records /\
     attached_volume = BlockDeviceVolume.set_host unattached_volume host) /\
  length (requests w') = S (length (requests w)).
Proof.
  intros Hrun. apply attach_volume_run in Hrun
    as [(e & [=] & _)
       | (records & unattached & uuid & letter & Hloop & Hin & Hid & Hreq & Hr)].
  destruct Hr as [[= ->] | [[=] | (? & ? & [=])]].
  repeat split; try assumption.
  - now exists records, unattached.
  - now rewrite Hreq.
Qed.

(** The volume is listed as in-use after the attach request and
    [/dev/xvdb] has appeared by then. *)
Lemma attach_volume_sends_one_request_witness :
  requests
    (Example.world_after
       (CinderBlockDeviceAPI.attach_volume 10 Example.self "vol-1" "192.0.2.1"
          (Example.world
             (fun n =>
                [Example.volume "vol-1"
                   (if (n <? 1)%nat then "available" else "in-use")
                   (Example.tagged (UUID.to_string Example.cluster)
                      (UUID.to_string Example.dataset))])
             (fun n => if (n <? 1)%nat then ["xvda"] else ["xvda"; "xvdb"]))))
  = [nova_create_server_volume Example.cluster "vol-1" "/dev/xvdb"].
Proof.
  assert (Hrun :
    CinderBlockDeviceAPI.attach_volume 10 Example.self "vol-1" "192.0.2.1"
      (Example.world
         (fun n =>
            [Example.volume "vol-1"
               (if (n <? 1)%nat then "available" else "in-use")
               (Example.tagged (UUID.to_string Example.cluster)
                  (UUID.to_string Example.dataset))])
         (fun n => if (n <? 1)%nat then ["xvda"] else ["xvda"; "xvdb"]))
    = Some (Return {| BlockDeviceVolume.blockdevice_id := "vol-1";
                      BlockDeviceVolume.size := 1000000000;
                      BlockDeviceVolume.host := Some "192.0.2.1";
                      BlockDeviceVolume.dataset_id := Example.dataset |},
            Example.world_after
              (CinderBlockDeviceAPI.attach_volume 10 Example.self "vol-1"
                 "192.0.2.1"
                 (Example.world
                    (fun n =>
                       [Example.volume "vol-1"
                          (if (n <? 1)%nat then "available" else "in-use")
                          (Example.tagged (UUID.to_string Example.cluster)
                             (UUID.to_string Example.dataset))])
                    (fun n =>
                       if (n <? 1)%nat then ["xvda"] else ["xvda"; "xvdb"])))))
    by (vm_compute; reflexivity).
  destruct (attach_volume_sends_one_request _ _ _ _ _ _ _ Hrun)
    as [(_ & e & He) | (uuid & letter & Hreq)]; [discriminate He |].
  vm_compute. reflexivity.
Defined.

Lemma attach_volume_returns_listed_record_witness :
  exists attached_volume w',
    CinderBlockDeviceAPI.attach_volume 10 Example.self "vol-1" "192.0.2.1"
      (Example.world
         (fun n =>
            [Example.volume "vol-1"
               (if (n <? 1)%nat then "available" else "in-use")
               (Example.tagged (UUID.to_string Example.cluster)
                  (UUID.to_string Example.dataset))])
         (fun n => if (n <? 1)%nat then ["xvda"] else ["xvda"; "xvdb"]))
    = Some (Return attached_volume, w') /\
    BlockDeviceVolume.blockdevice_id attached_volume = "vol-1" /\
    BlockDeviceVolume.host attached_volume = Some "192.0.2.1".
Proof.
  assert (Hout :
    Example.outcome
      (CinderBlockDeviceAPI.attach_volume 10 Example.self "vol-1" "192.0.2.1"
         (Example.world
            (fun n =>
               [Example.volume "vol-1"
                  (if (n <? 1)%nat then "available" else "in-use")
                  (Example.tagged (UUID.to_string Example.cluster)
                     (UUID.to_string Example.dataset))])
            (fun n => if (n <? 1)%nat then ["xvda"] else ["xvda"; "xvdb"])))
    = Some (Return {| BlockDeviceVolume.blockdevice_id := "vol-1";
                      BlockDeviceVolume.size := 1000000000;
                      BlockDeviceVolume.host := Some "192.0.2.1";
                      BlockDeviceVolume.dataset_id := Example.dataset |}))
    by (vm_compute; reflexivity).
  destruct (outcome_Return_inv _ _ Hout) as [w' Hrun].
  destruct (attach_volume_returns_listed_record _ _ _ _ _ _ _ Hrun)
    as (Hid & Hhost & _).
  eexists; exists w'. split; [exact Hrun |]. split; [exact Hid | exact Hhost].
Defined.

(** ** Reading the instance id *)

Lemma list_ascii_of_string_app (s1 s2 : string) :
  list_ascii_of_string (s1 ++ s2) =
  (list_ascii_of_string s1 ++ list_ascii_of_string s2)%list.
Proof.
  induction s1 as [| c s1 IH]; [reflexivity |].
  change (String c s1 ++ s2) with (String c (s1 ++ s2)).
  cbn [list_ascii_of_string]. now rewrite IH.
Qed.

Lemma length_list_ascii_of_string (s : string) :
  length (list_ascii_of_string s) = String.length s.
Proof. induction s as [| c s IH]; [reflexivity |]. simpl. now rewrite IH. Qed.

Lemma rstrip_chars_spaces (ws : list ascii) :
  Forall (fun c => Py.is_space c = true) ws -> Py.rstrip_chars ws = [].
Proof.
  induction 1 as [| c ws Hc _ IH]; [reflexivity |].
  cbn [Py.rstrip_chars]. now rewrite IH, Hc.
Qed.

Lemma rstrip_chars_app_spaces (l ws : list ascii) :
  Forall (fun c => Py.is_space c = true) ws ->
  Py.rstrip_chars (l ++ ws) = Py.rstrip_chars l.
Proof.
  intros Hws. induction l as [| c l IH].
  - simpl. now apply rstrip_chars_spaces.
  - cbn [app Py.rstrip_chars]. now rewrite IH.
Qed.

Lemma rstrip_chars_ends_with (l : list ascii) (c : ascii) :
  Py.is_space c = false -> Py.rstrip_chars (l ++ [c]) = (l ++ [c])%list.
Proof.
  intros Hc. induction l as [| a l IH].
  - simpl. now rewrite Hc.
  - cbn [app Py.rstrip_chars]. rewrite IH.
    destruct (l ++ [c])%list eqn:Heq; [| reflexivity].
    now destruct l.
Qed.

Lemma hex_digit_not_space (d : Z) :
  0 <= d < 16 -> Py.is_space (UUID.hex_digit d) = false.
Proof.
  intros Hd.
  assert (d = 0 \/ d = 1 \/ d = 2 \/ d = 3 \/ d = 4 \/ d = 5 \/ d = 6 \/ d = 7 \/
          d = 8 \/ d = 9 \/ d = 10 \/ d = 11 \/ d = 12 \/ d = 13 \/ d = 14 \/
          d = 15) as Hcases by lia.
  repeat (destruct Hcases as [-> | Hcases]; [reflexivity |]).
  subst d. reflexivity.
Qed.

(** The text of a UUID ends with a hexadecimal digit. *)
Lemma UUID_to_string_last (u : UUID.t) :
  exists body,
    list_ascii_of_string (UUID.to_string u) =
    (body ++ [UUID.hex_digit (u mod 16)])%list.
Proof.
  unfold UUID.to_string. rewrite list_ascii_of_string_of_list_ascii.
  unfold UUID.hyphenate.
  change (UUID.hex_of 32 u)
    with (UUID.hex_of 31 (u / 16) ++ [UUID.hex_digit (u mod 16)])%list.
  set (h := UUID.hex_of 31 (u / 16)).
  assert (Hlen : length h = 31%nat) by apply hex_of_length.
  rewrite (skipn_app 20), Hlen. cbn [Nat.sub skipn].
  eexists. rewrite !app_comm_cons, !app_assoc. reflexivity.
Qed.

(** X13.  When [xenstore-read name] prints nine characters, the text of
    a UUID and then whitespace, [_instance_uuid] returns that UUID and
    changes nothing.  The nine characters are dropped whatever they
    are: the prefix [instance-] is not checked. *)
Theorem instance_uuid_reads_name
    (w : World) (prefix trailing : string) (u : UUID.t) :
  UUID.valid u ->
  String.length prefix = 9%nat ->
  Forall (fun c => Py.is_space c = true) (list_ascii_of_string trailing) ->
  xenstore_name w = prefix ++ UUID.to_string u ++ trailing ->
  _instance_uuid w = Some (Return u, w).
Proof.
  intros Hu Hprefix Htrailing Hname.
  rewrite instance_uuid_unfold, Hname. f_equal. f_equal.
  rewrite <- (UUID_of_str_to_string u Hu). f_equal.
  unfold Py.drop_prefix, Py.rstrip.
  rewrite list_ascii_of_string_of_list_ascii.
  rewrite !list_ascii_of_string_app, app_assoc.
  rewrite rstrip_chars_app_spaces by exact Htrailing.
  destruct (UUID_to_string_last u) as [body Hbody].
  rewrite Hbody, app_assoc.
  rewrite rstrip_chars_ends_with
    by (apply hex_digit_not_space, Z.mod_pos_bound; lia).
  rewrite <- app_assoc, <- Hbody.
  change (String.length "instance-") with 9%nat.
  rewrite <- Hprefix, <- length_list_ascii_of_string.
  rewrite skipn_app, Nat.sub_diag, skipn_all. cbn [app skipn].
  apply string_of_list_ascii_of_string.
Qed.

Lemma instance_uuid_reads_name_witness :
  _instance_uuid
    (Example.world (fun _ => []) (fun _ => []))
  = Some (Return Example.cluster,
          Example.world (fun _ => []) (fun _ => [])).
Proof.
  apply (instance_uuid_reads_name _ "instance-" (String "010"%char "")).
  - unfold UUID.valid, Example.cluster. lia.
  - reflexivity.
  - repeat constructor.
  - vm_compute. reflexivity.
Defined.

(** ** Allocating device paths one after the other *)

Lemma xvd_name_counts (n : nat) :
  (n < 26)%nat ->
  existing_devices "/dev/xvd" [FilePath.dev_child (xvd_name n)]
  = [FilePath.dev_child (xvd_name n)].
Proof.
  intros Hn. do 26 (destruct n as [| n]; [reflexivity |]). lia.
Qed.

Lemma xvd_name_inj (n m : nat) :
  (n < 26)%nat -> (m < 26)%nat -> xvd_name n = xvd_name m -> n = m.
Proof.
  unfold xvd_name. intros Hn Hm [= Heq].
  apply (f_equal nat_of_ascii) in Heq.
  rewrite !nat_ascii_embedding in Heq by lia. lia.
Qed.

Lemma existing_devices_app (prefix : string) (l1 l2 : list FilePath.t) :
  existing_devices prefix (l1 ++ l2) =
  (existing_devices prefix l1 ++ existing_devices prefix l2)%list.
Proof. unfold existing_devices. apply List.filter_app. Qed.

(** X14.  When the entries of [/dev] that count are among [xvda], ...,
    up to as many letters as there are of them (the device nodes were
    handed out in order and none is missing), the path [_next_device]
    returns is not in [/dev]. *)
Theorem next_device_is_unused
    (w : World) (n : nat) :
  n = length (existing_devices "/dev/xvd"
                (map FilePath.dev_child (dev w (dev_looked w)))) ->
  (n < 26)%nat ->
  (forall name,
     In (FilePath.dev_child name)
        (existing_devices "/dev/xvd"
           (map FilePath.dev_child (dev w (dev_looked w)))) ->
     exists i, (i < n)%nat /\ name = xvd_name i) ->
  exists w',
    _next_device w = Some (Return ("/dev/" ++ xvd_name n), w') /\
    ~ In ("/dev/" ++ xvd_name n)
        (map (fun name => "/dev/" ++ name) (dev w (dev_looked w))).
Proof.
  intros Hcount Hn Hcontiguous.
  destruct (next_device_unfold w) as (w' & Hrun & _).
  rewrite <- Hcount, (ascii_lowercase_get _ Hn) in Hrun.
  exists w'. split; [exact Hrun |].
  intros Hin. apply in_map_iff in Hin as (name & Heq & Hname).
  assert (name = xvd_name n) as ->.
  { unfold xvd_name in *. cbn in Heq. now injection Heq. }
  clear Heq. destruct (Hcontiguous (xvd_name n)) as (i & Hi & Heq).
  - unfold existing_devices. apply filter_In. split.
    + now apply in_map.
    + pose proof (xvd_name_counts n Hn) as Hone.
      unfold existing_devices in Hone. cbn [List.filter] in Hone.
      destruct (_ && _); [reflexivity | discriminate Hone].
  - apply xvd_name_inj in Heq; lia.
Qed.

(** X15.  Two allocations in a row, on a host with fewer than 25
    entries of [/dev] that count (so that a letter is left for each):
    when the device node of the first path has appeared in [/dev] by
    the second look, and nothing else has changed, the second
    [_next_device] returns the next letter. *)
Theorem next_device_twice
    (w : World) (n : nat) :
  n = length (existing_devices "/dev/xvd"
                (map FilePath.dev_child (dev w (dev_looked w)))) ->
  (S n < 26)%nat ->
  dev w (S (dev_looked w)) = (dev w (dev_looked w) ++ [xvd_name n])%list ->
  exists w'',
    (first ← _next_device; second ← _next_device; mret (first, second)) w
    = Some (Return ("/dev/" ++ xvd_name n, "/dev/" ++ xvd_name (S n)), w'').
Proof.
  intros Hcount Hn Hdev.
  destruct (next_device_unfold w)
    as (w1 & Hfirst & _ & _ & Hlooked & Hdev1 & _).
  rewrite <- Hcount, (ascii_lowercase_get n) in Hfirst by lia.
  destruct (next_device_unfold w1) as (w2 & Hsecond & _).
  rewrite Hdev1, Hlooked, Hdev in Hsecond.
  rewrite map_app, existing_devices_app, length_app, <- Hcount in Hsecond.
  cbn [map] in Hsecond. rewrite xvd_name_counts in Hsecond by lia.
  cbn [length] in Hsecond. rewrite Nat.add_1_r in Hsecond.
  rewrite (ascii_lowercase_get (S n)) in Hsecond by lia.
  exists w2.
  rewrite (bind_Return _ _ _ _ _ Hfirst), (bind_Return _ _ _ _ _ Hsecond).
  reflexivity.
Qed.

Lemma next_device_is_unused_witness :
  exists w',
    _next_device
      (Example.world (fun _ => []) (fun _ => ["xvdb"; "sda"; "xvda"; "xvda1"]))
    = Some (Return "/dev/xvdc", w') /\
    ~ In "/dev/xvdc"
        (map (fun name => "/dev/" ++ name) ["xvdb"; "sda"; "xvda"; "xvda1"]).
Proof.
  apply (next_device_is_unused
           (Example.world (fun _ => [])
              (fun _ => ["xvdb"; "sda"; "xvda"; "xvda1"])) 2 eq_refl).
  - lia.
  - intros name Hin. vm_compute in Hin.
    destruct Hin as [[= <-] | [[= <-] | []]].
    + exists 1%nat. split; [lia | reflexivity].
    + exists 0%nat. split; [lia | reflexivity].
Defined.

Lemma next_device_twice_witness :
  exists w'',
    (first ← _next_device; second ← _next_device; mret (first, second))
      (Example.world (fun _ => [])
         (fun k => if (k <? 1)%nat then ["xvda"; "sda"]
                   else ["xvda"; "sda"; "xvdb"]))
    = Some (Return ("/dev/xvdb", "/dev/xvdc"), w'').
Proof.
  apply (next_device_twice
           (Example.world (fun _ => [])
              (fun k => if (k <? 1)%nat then ["xvda"; "sda"]
                        else ["xvda"; "sda"; "xvdb"])) 1 eq_refl).
  - lia.
  - reflexivity.
Defined.

(** ** Sizes of listed volumes *)

Lemma blockdevicevolume_size (v : Volume.t) (record : BlockDeviceVolume.t) :
  _blockdevicevolume_from_cinder_volume v = Return record ->
  BlockDeviceVolume.size record
  = Py.int_of_float (GB_to_Byte (Volume.size v)).
Proof.
  unfold _blockdevicevolume_from_cinder_volume.
  destruct (Volume.metadata v !! DATASET_ID_LABEL) as [label |]; [| discriminate].
  destruct (UUID_ label); simpl; [| discriminate].
  intros [= <-]. reflexivity.
Qed.

(** X16.  The size of a record is the capacity of the provider volume
    in GB times 10^9, rounded to a double and then cut to an integer:
    it is that product exactly for a whole number of GB that makes
    fewer than 2^53 bytes, and for every capacity it is off the
    product by less than one byte and 2^-53 of the product. *)
Theorem record_size_in_bytes
    (v : Volume.t) (record : BlockDeviceVolume.t) :
  _blockdevicevolume_from_cinder_volume v = Return record ->
  (forall g : Z,
     (Volume.size v == inject_Z g)%Q ->
     0 <= g * 10 ^ 9 < 2 ^ 53 ->
     BlockDeviceVolume.size record = g * 10 ^ 9) /\
  (Qabs (inject_Z (BlockDeviceVolume.size record)
         - Volume.size v * inject_Z (10 ^ 9))
   < 1 + Qabs (Volume.size v * inject_Z (10 ^ 9)) * (1 # 9007199254740992))%Q.
Proof.
  intros Hrecord. rewrite (blockdevicevolume_size v record Hrecord).
  unfold GB_to_Byte. change GB_in_bytes with (10 ^ 9). split.
  - intros g Hg Hrange. apply int_of_float_integer.
    rewrite <- (double_integer (g * 10 ^ 9) Hrange).
    apply double_comp. rewrite Hg, inject_Z_mult. reflexivity.
  - set (p := (Volume.size v * inject_Z (10 ^ 9))%Q).
    destruct (double_error_within p (Qabs p) (Qle_refl _)) as [Hlow Hup].
    destruct (int_of_float_error (Float.double p)) as [Hlow' Hup'].
    apply Qabs_Qlt_condition.
    set (bound := Qabs p) in *. clearbody bound.
    set (r := inject_Z (Py.int_of_float (Float.double p))) in *. clearbody r.
    set (b := Float.double p) in *. clearbody b. clearbody p.
    split; lra.
Qed.

(** A capacity of 0.03 GB, the double nearest to 3/100, which is
    below it: the product is rounded up to 30,000,000 bytes. *)
Lemma record_size_in_bytes_witness :
  _blockdevicevolume_from_cinder_volume
    {| Volume.id := "vol-1"; Volume.size := Float.double (3 # 100);
       Volume.status := "available";
       Volume.metadata :=
         Example.tagged (UUID.to_string Example.cluster)
           (UUID.to_string Example.dataset) |}
  = Return {| BlockDeviceVolume.blockdevice_id := "vol-1";
              BlockDeviceVolume.size := 30000000;
              BlockDeviceVolume.host := None;
              BlockDeviceVolume.dataset_id := Example.dataset |} /\
  (Float.double (3 # 100) < 3 # 100)%Q /\
  (Qabs (inject_Z 30000000 - Float.double (3 # 100) * inject_Z (10 ^ 9))
   < 1 + Qabs (Float.double (3 # 100) * inject_Z (10 ^ 9))
         * (1 # 9007199254740992))%Q.
Proof.
  assert (Hmap :
    _blockdevicevolume_from_cinder_volume
      {| Volume.id := "vol-1"; Volume.size := Float.double (3 # 100);
         Volume.status := "available";
         Volume.metadata :=
           Example.tagged (UUID.to_string Example.cluster)
             (UUID.to_string Example.dataset) |}
    = Return {| BlockDeviceVolume.blockdevice_id := "vol-1";
                BlockDeviceVolume.size := 30000000;
                BlockDeviceVolume.host := None;
                BlockDeviceVolume.dataset_id := Example.dataset |})
    by (vm_compute; reflexivity).
  split; [exact Hmap |]. split; [vm_compute; reflexivity |].
  exact (proj2 (record_size_in_bytes _ _ Hmap)).
Defined.

(** ** Rackspace sessions *)

Lemma rackspace_session_unfold (kwargs : gmap string string) :
  rackspace_session kwargs =
  match kwargs !! "username", kwargs !! "key" with
  | None, _ => Raise (KeyError "username")
  | Some _, None => Raise (KeyError "key")
  | Some username, Some api_key =>
      Return {| Session.auth :=
                  {| RackspaceAuth.auth_url := RACKSPACE_AUTH_URL;
                     RackspaceAuth.username := username;
                     RackspaceAuth.api_key := api_key |} |}
  end.
Proof.
  unfold rackspace_session, dict_pop.
  destruct (kwargs !! "username") as [username |]; [| reflexivity]. cbn.
  rewrite lookup_delete_ne by discriminate.
  destruct (kwargs !! "key"); reflexivity.
Qed.

(** X17.  [rackspace_session] looks at the keyword arguments
    [username] and [key] only: two calls whose arguments agree on these
    two give the same result, whatever else is passed (a [region], an
    [api_key]).  Without [username] it raises [KeyError] for
    [username]; with [username] but without [key], [KeyError] for
    [key]; with both it returns a session for the Rackspace
    authentication URL with that user name and that key. *)
Theorem rackspace_session_reads_username_and_key
    (kwargs kwargs' : gmap string string) :
  kwargs !! "username" = kwargs' !! "username" ->
  kwargs !! "key" = kwargs' !! "key" ->
  rackspace_session kwargs = rackspace_session kwargs' /\
  (kwargs !! "username" = None ->
   rackspace_session kwargs = Raise (KeyError "username")) /\
  (is_Some (kwargs !! "username") -> kwargs !! "key" = None ->
   rackspace_session kwargs = Raise (KeyError "key")) /\
  (forall username api_key,
     kwargs !! "username" = Some username ->
     kwargs !! "key" = Some api_key ->
     rackspace_session kwargs =
       Return {| Session.auth :=
                   {| RackspaceAuth.auth_url :=
                        "https://identity.api.rackspacecloud.com/v2.0";
                      RackspaceAuth.username := username;
                      RackspaceAuth.api_key := api_key |} |}).
Proof.
  intros Hu Hk. rewrite !rackspace_session_unfold, <- Hu, <- Hk.
  split; [reflexivity |]. split; [| split].
  - now intros ->.
  - intros [username ->] ->. reflexivity.
  - intros username api_key -> ->. reflexivity.
Qed.

(** Called as its docstring says, with [api_key] and [region], it
    raises: the key is read from [key]. *)
Lemma rackspace_session_reads_username_and_key_witness :
  rackspace_session
    (<["username" := "alice"]>
       (<["api_key" := "secret"]> (<["region" := "ord"]> ∅)))
  = rackspace_session (<["username" := "alice"]> ∅) /\
  rackspace_session
    (<["username" := "alice"]>
       (<["api_key" := "secret"]> (<["region" := "ord"]> ∅)))
  = Raise (KeyError "key").
Proof.
  assert (Hu :
    (<["username" := "alice"]>
       (<["api_key" := "secret"]> (<["region" := "ord"]> ∅))
     : gmap string string) !! "username"
    = (<["username" := "alice"]> ∅ : gmap string string) !! "username")
    by (vm_compute; reflexivity).
  assert (Hk :
    (<["username" := "alice"]>
       (<["api_key" := "secret"]> (<["region" := "ord"]> ∅))
     : gmap string string) !! "key"
    = (<["username" := "alice"]> ∅ : gmap string string) !! "key")
    by (vm_compute; reflexivity).
  destruct (rackspace_session_reads_username_and_key _ _ Hu Hk)
    as (Hsame & _ & Hkey & _).
  split; [exact Hsame |]. apply Hkey.
  - vm_compute. eauto.
  - vm_compute. reflexivity.
Defined.
